(** * Health-tracking REST backend: routes, storage layer and analysis glue

    A shallow embedding of [server/routes.ts], [server/storage.ts],
    [server/anthropic.ts] and the table declarations of [shared/schema.ts],
    followed by the properties of the specification that were checked
    against it.

    The handlers are written in a small state-and-exception monad over a
    world made of the relational store, the list of outbound calls and the
    server console.  The libraries the handlers call (the query builder and
    PostgreSQL behind it, the schema validator, the HTTP framework) are
    modelled by the fragment of their behaviour the handlers rely on; each
    such fragment says in its comment what it leaves out. *)

From Stdlib Require Import ZArith Ascii String.
From stdpp Require Import gmap strings list fin_maps sorting.

#[local] Set Warnings "-register-all".
#[local] Open Scope string_scope.
#[local] Open Scope list_scope.
#[local] Open Scope Z_scope.

(* ===================================================================== *)
(** ** JavaScript values                                                   *)
(* ===================================================================== *)

Module JS.

(** A JavaScript string is held as the bytes of its UTF-8 encoding, the
    form in which it travels in a request; a character beyond ASCII takes
    two to four bytes. *)

(** A JavaScript number, as far as this program computes with one: an
    integer or [NaN].  Fractions and the rounding of doubles are outside
    the model: a [Num n] is the number JavaScript computes with as long as
    [n] is a safe integer, of magnitude below 2^53. *)
Inductive number :=
| NaN
| Num (z : Z).

(** Values met in request bodies, in the objects handed to the storage
    layer, and in the replies of the analysis provider.  A [Date] holds its
    time value in milliseconds, [None] being the Invalid Date.  An absent
    property ([undefined]) is an absent key of the enclosing map. *)
Inductive value :=
| VNull
| VBool (b : bool)
| VNum (n : number)
| VStr (s : string)
| VArr (l : list value)
| VObj (m : gmap string value)
| VDate (t : option Z).

(** An object literal or request body. *)
Abbreviation object := (gmap string value).

(** A [Date] by its time value, [None] for the Invalid Date. *)
Abbreviation Date := (option Z).

(** Truthiness of a value that is present ([!x] is its negation). *)
Definition truthy (v : value) : bool :=
  match v with
  | VNull => false
  | VBool b => b
  | VNum NaN => false
  | VNum (Num z) => negb (z =? 0)
  | VStr s => negb (String.eqb s "")
  | VArr _ | VObj _ | VDate _ => true
  end.

(** Truthiness of a property read, [undefined] when the key is absent. *)
Definition truthy_opt (o : option value) : bool :=
  match o with
  | None => false
  | Some v => truthy v
  end.

(** Truthiness of a query-string parameter (a string when present). *)
Definition truthy_str (o : option string) : bool :=
  match o with
  | None => false
  | Some s => negb (String.eqb s "")
  end.

(** A thrown [Error]. *)
Record Error := mkError { err_name : string; err_message : string }.

(** *** Characters of a string *)

(** A byte that continues a character begun before it. *)
Definition is_continuation (c : ascii) : bool :=
  let n := nat_of_ascii c in (Nat.leb 128 n && Nat.ltb n 192)%bool.

(** The byte that begins a character outside the basic plane, which takes
    two code units in JavaScript. *)
Definition is_astral_lead (c : ascii) : bool := Nat.leb 240 (nat_of_ascii c).

(** The number of characters (code points) of [s]. *)
Fixpoint code_points (s : string) : nat :=
  match s with
  | EmptyString => 0
  | String c r =>
      if is_continuation c then code_points r else S (code_points r)
  end.

(** [s.length]: the number of UTF-16 code units of [s]. *)
Fixpoint code_units (s : string) : nat :=
  match s with
  | EmptyString => 0
  | String c r =>
      if is_continuation c then code_units r
      else if is_astral_lead c then S (S (code_units r))
      else S (code_units r)
  end.

(** *** [parseInt] with no radix argument *)

(** The white space and line terminators of one byte: U+0009 to U+000D and
    U+0020. *)
Definition is_space (c : ascii) : bool :=
  let n := nat_of_ascii c in
  (Nat.eqb n 32 || (Nat.leb 9 n && Nat.leb n 13))%bool.

(** U+00A0, the one of two bytes. *)
Definition is_space2 (a b : ascii) : bool :=
  (Nat.eqb (nat_of_ascii a) 194 && Nat.eqb (nat_of_ascii b) 160)%bool.

(** Those of three bytes: U+1680, U+2000 to U+200A, U+2028, U+2029,
    U+202F, U+205F, U+3000 and U+FEFF. *)
Definition is_space3 (a b c : ascii) : bool :=
  let '(x, y, z) := (nat_of_ascii a, nat_of_ascii b, nat_of_ascii c) in
  (Nat.eqb x 225 && Nat.eqb y 154 && Nat.eqb z 128
   || Nat.eqb x 226 && Nat.eqb y 128
      && (Nat.leb 128 z && Nat.leb z 138
          || Nat.eqb z 168 || Nat.eqb z 169 || Nat.eqb z 175)
   || Nat.eqb x 226 && Nat.eqb y 129 && Nat.eqb z 159
   || Nat.eqb x 227 && Nat.eqb y 128 && Nat.eqb z 128
   || Nat.eqb x 239 && Nat.eqb y 187 && Nat.eqb z 191)%bool.

(** [s] without its leading white space and line terminators. *)
Fixpoint skip_spaces (s : string) : string :=
  match s with
  | EmptyString => s
  | String a r =>
      if is_space a then skip_spaces r
      else
        match r with
        | EmptyString => s
        | String b r2 =>
            if is_space2 a b then skip_spaces r2
            else
              match r2 with
              | EmptyString => s
              | String c r3 =>
                  if is_space3 a b c then skip_spaces r3 else s
              end
        end
  end.

Definition digit_val (radix : Z) (c : ascii) : option Z :=
  let n := Z.of_nat (nat_of_ascii c) in
  let d :=
    if (48 <=? n) && (n <=? 57) then Some (n - 48)
    else if (97 <=? n) && (n <=? 122) then Some (n - 87)
    else if (65 <=? n) && (n <=? 90) then Some (n - 55)
    else None in
  match d with
  | Some v => if v <? radix then Some v else None
  | None => None
  end.

(** The longest prefix of digits of [s], read in [radix]; [acc] is [None]
    as long as no digit was read. *)
Fixpoint parse_digits (radix : Z) (s : string) (acc : option Z) : option Z :=
  match s with
  | EmptyString => acc
  | String c r =>
      match digit_val radix c with
      | Some d => parse_digits radix r (Some (radix * default 0 acc + d))
      | None => acc
      end
  end.

Definition strip_sign (s : string) : bool * string :=
  match s with
  | String "-" r => (true, r)
  | String "+" r => (false, r)
  | _ => (false, s)
  end.

Definition strip_radix (s : string) : Z * string :=
  match s with
  | String "0" (String "x" r) => (16, r)
  | String "0" (String "X" r) => (16, r)
  | _ => (10, s)
  end.

Definition parseInt (s : string) : number :=
  let '(neg, s1) := strip_sign (skip_spaces s) in
  let '(radix, s2) := strip_radix s1 in
  match parse_digits radix s2 None with
  | None => NaN
  | Some n => Num (if neg then - n else n)
  end.

(** *** Strings *)

Definition dquote : string := String (ascii_of_nat 34) EmptyString.

Definition is_hex (c : ascii) : bool :=
  match digit_val 16 c with Some _ => true | None => false end.

Definition lower_ascii (c : ascii) : ascii :=
  let n := nat_of_ascii c in
  if (Nat.leb 65 n && Nat.leb n 90)%bool then ascii_of_nat (n + 32) else c.

Fixpoint lower (s : string) : string :=
  match s with
  | EmptyString => EmptyString
  | String c r => String (lower_ascii c) (lower r)
  end.



End JS.

Export JS.

(* ===================================================================== *)
(** ** Results of fallible computations                                    *)
(* ===================================================================== *)

(** A computation either returns or throws. *)
Inductive outcome (A : Type) :=
| Return (a : A)
| Throw (e : Error).
Arguments Return {A} a.
Arguments Throw {A} e.

#[export] Instance outcome_ret : MRet outcome := @Return.
#[export] Instance outcome_bind : MBind outcome := fun A B f m =>
  match m with
  | Return a => f a
  | Throw e => Throw e
  end.
#[export] Instance outcome_fmap : FMap outcome := fun A B f m =>
  match m with
  | Return a => Return (f a)
  | Throw e => Throw e
  end.

Definition throw_if {A} (o : option Error) (k : outcome A) : outcome A :=
  match o with
  | Some e => Throw e
  | None => k
  end.

(* ===================================================================== *)
(** ** The relational store                                                *)
(* ===================================================================== *)

(** The fragment of PostgreSQL reached through the query builder: typed
    columns with defaults, NOT NULL, UNIQUE and REFERENCES constraints,
    single-statement INSERT (with and without ON CONFLICT DO UPDATE),
    UPDATE and SELECT with WHERE, ORDER BY ... DESC and LIMIT. *)
Module Pg.

(** The value of a cell.  A timestamp is a point on one time line, counted
    in the unit of [Date]; uuid, enum, decimal and date cells hold their
    text. *)
Inductive sqlval :=
| SNull
| SInt (n : Z)
| SText (s : string)
| SBool (b : bool)
| STimestamp (t : Z)
| SJson (v : value)
| STextArr (l : list string).

(** A row, keyed by the property names of the table declaration. *)
Abbreviation row := (gmap string sqlval).

Definition cell (r : row) (k : string) : sqlval := default SNull (r !! k).

Definition is_null (v : sqlval) : bool :=
  match v with SNull => true | _ => false end.

Inductive coltype :=
| TSerial
| TUuid
| TInteger
| TDecimal (precision scale : nat)
| TVarchar (len : option nat)
| TText
| TTextArray
| TJsonb
| TTimestamp
| TDate
| TBoolean
| TEnum (vals : list string).

Inductive coldefault :=
| NoDefault
| DefaultSerial
| DefaultNow
| DefaultRandomUuid
| DefaultValue (v : sqlval).

Record column := mkColumn {
  col_key : string;
  col_type : coltype;
  col_notNull : bool;
  col_default : coldefault;
  col_unique : bool;
  col_references : option (string * string)
}.

Record table := mkTable {
  tbl_name : string;
  tbl_columns : list column
}.

Definition has_default (c : column) : bool :=
  match col_default c with NoDefault => false | _ => true end.

Definition find_column (t : table) (k : string) : option column :=
  List.find (fun c => String.eqb (col_key c) k) (tbl_columns t).

(** *** The store *)

Record DB := mkDB {
  tables : gmap string (list row);
  sequences : gmap string Z
}.

Definition rows_of (db : DB) (name : string) : list row :=
  default [] (tables db !! name).

Definition set_rows (db : DB) (name : string) (rs : list row) : DB :=
  mkDB (<[name := rs]> (tables db)) (sequences db).

Definition nextval (db : DB) (name : string) : Z :=
  default 0 (sequences db !! name) + 1.

Definition advance (db : DB) (name : string) : DB :=
  mkDB (tables db) (<[name := nextval db name]> (sequences db)).

(** *** Input conversion *)

Definition int4 (n : Z) : bool := (-2147483648 <=? n) && (n <=? 2147483647).

Fixpoint all_hex (s : string) : bool :=
  match s with
  | EmptyString => true
  | String c r => is_hex c && all_hex r
  end.

(** Groups of 8, 4, 4, 4 and 12 hexadecimal digits joined by hyphens: the
    spelling of a uuid the validator asks for.  The server reads a few
    other spellings too; they are refused here. *)
Definition is_uuid (s : string) : bool :=
  (Nat.eqb (String.length s) 36)
  && all_hex (substring 0 8 s) && String.eqb (substring 8 1 s) "-"
  && all_hex (substring 9 4 s) && String.eqb (substring 13 1 s) "-"
  && all_hex (substring 14 4 s) && String.eqb (substring 18 1 s) "-"
  && all_hex (substring 19 4 s) && String.eqb (substring 23 1 s) "-"
  && all_hex (substring 24 12 s).

Definition is_digit (c : ascii) : bool :=
  match digit_val 10 c with Some _ => true | None => false end.

Fixpoint all_digits (s : string) : bool :=
  match s with
  | EmptyString => true
  | String c r => is_digit c && all_digits r
  end.

(** Digits, with at most one point among them. *)
Fixpoint decimal_digits (seen_point seen_digit : bool) (s : string) : bool :=
  match s with
  | EmptyString => seen_digit
  | String c r =>
      if is_digit c then decimal_digits seen_point true r
      else if Ascii.eqb c "." && negb seen_point
           then decimal_digits true seen_digit r
      else false
  end.

Definition is_decimal (s : string) : bool :=
  decimal_digits false false (snd (strip_sign s)).

(** A calendar date written [YYYY-MM-DD]. *)
Definition is_date (s : string) : bool :=
  (Nat.eqb (String.length s) 10)
  && all_digits (substring 0 4 s) && String.eqb (substring 4 1 s) "-"
  && all_digits (substring 5 2 s) && String.eqb (substring 7 1 s) "-"
  && all_digits (substring 8 2 s)
  && match parseInt (substring 5 2 s), parseInt (substring 8 2 s) with
     | Num m, Num d => (1 <=? m) && (m <=? 12) && (1 <=? d) && (d <=? 31)
     | _, _ => false
     end.

(** [s] without its first [n] characters. *)
Fixpoint drop_continuation (s : string) : string :=
  match s with
  | String c r => if is_continuation c then drop_continuation r else s
  | EmptyString => s
  end.

Fixpoint drop_chars (n : nat) (s : string) : string :=
  match n, s with
  | S n', String _ r => drop_chars n' (drop_continuation r)
  | _, _ => s
  end.

Fixpoint all_blank (s : string) : bool :=
  match s with
  | EmptyString => true
  | String c r => Ascii.eqb c " " && all_blank r
  end.

(** What a [varchar(n)] column stores of [s]: [s] itself when it has at
    most [n] characters; its first [n] characters when what follows them
    is only spaces; nothing, the value being refused, otherwise. *)
Definition fits (len : option nat) (s : string) : option string :=
  match len with
  | None => Some s
  | Some n =>
      let excess := drop_chars n s in
      if all_blank excess
      then Some (substring 0 (String.length s - String.length excess) s)
      else None
  end.

Fixpoint texts (l : list value) : option (list string) :=
  match l with
  | [] => Some []
  | VStr s :: r => cons s <$> texts r
  | _ :: _ => None
  end.

(** The cell a JavaScript value becomes when it is sent for a column of
    type [ty]; [None] when the driver or the server refuses it.  A value is
    accepted in the JavaScript type the column maps to; the conversions the
    server would still attempt from the text form of a value of another
    type are refused.  A uuid is stored in lower case.  A decimal keeps the
    digits as written (the server would render it again at the scale of
    the column, and checks its precision), a jsonb cell keeps the value as
    given, lengths count characters.  A timestamp is sent as the ISO text
    of the [Date]; the server reads that text for the years 0001 to 9999
    only, which is left to the caller: see [storable] below. *)
Definition encode (ty : coltype) (v : value) : option sqlval :=
  match v with
  | VNull => Some SNull
  | _ =>
      match ty, v with
      | (TSerial | TInteger), VNum (Num n) =>
          if int4 n then Some (SInt n) else None
      | TUuid, VStr s => if is_uuid s then Some (SText (lower s)) else None
      | TDecimal _ _, VStr s => if is_decimal s then Some (SText s) else None
      | TVarchar len, VStr s => SText <$> fits len s
      | TText, VStr s => Some (SText s)
      | TTextArray, VArr l => STextArr <$> texts l
      | TJsonb, _ => Some (SJson v)
      | TTimestamp, VDate (Some t) => Some (STimestamp t)
      | TDate, VStr s => if is_date s then Some (SText s) else None
      | TBoolean, VBool b => Some (SBool b)
      | TEnum vals, VStr s =>
          if bool_decide (s ∈ vals) then Some (SText s) else None
      | _, _ => None
      end
  end.

Definition refused (k : string) : Error :=
  mkError "error" ("invalid input value for column " +:+ k).

Definition encode_for (c : column) (v : value) : outcome sqlval :=
  match encode (col_type c) v with
  | Some s => Return s
  | None => Throw (refused (col_key c))
  end.

(** *** Comparisons *)

(** Comparison of two cells; [None] when either is NULL (the comparison is
    then unknown) or when the cells are of kinds that are not compared. *)
Definition sql_compare (a b : sqlval) : option comparison :=
  match a, b with
  | SInt x, SInt y => Some (x ?= y)
  | STimestamp x, STimestamp y => Some (x ?= y)
  | SText x, SText y => Some (String.compare x y)
  | SBool x, SBool y => Some (Z.b2z x ?= Z.b2z y)
  | _, _ => None
  end.

Definition sql_eq (a b : sqlval) : bool :=
  match sql_compare a b with Some Eq => true | _ => false end.
Definition sql_ge (a b : sqlval) : bool :=
  match sql_compare a b with Some Eq | Some Gt => true | _ => false end.
Definition sql_le (a b : sqlval) : bool :=
  match sql_compare a b with Some Eq | Some Lt => true | _ => false end.

(** Conditions as the query builder's operators write them, their
    parameters still JavaScript values. *)
Inductive cond :=
| CEq (col : string) (v : value)
| CGte (col : string) (v : value)
| CLte (col : string) (v : value)
| CAnd (cs : list cond).

(** Conditions whose parameters were converted for their column. *)
Inductive bound :=
| BEq (col : string) (v : sqlval)
| BGte (col : string) (v : sqlval)
| BLte (col : string) (v : sqlval)
| BAnd (cs : list bound).

Definition unknown_column (k : string) : Error :=
  mkError "error" ("column " +:+ k +:+ " does not exist").

Definition bind_param (t : table) (k : string) (v : value) : outcome sqlval :=
  match find_column t k with
  | Some c => encode_for c v
  | None => Throw (unknown_column k)
  end.

Fixpoint bind (t : table) (c : cond) : outcome bound :=
  match c with
  | CEq k v => BEq k <$> bind_param t k v
  | CGte k v => BGte k <$> bind_param t k v
  | CLte k v => BLte k <$> bind_param t k v
  | CAnd cs =>
      BAnd <$> (fix bind_all (l : list cond) : outcome (list bound) :=
                  match l with
                  | [] => Return []
                  | c :: l' =>
                      b ← bind t c; bs ← bind_all l'; Return (b :: bs)
                  end) cs
  end.

(** The rows a WHERE clause keeps are those on which it is true. *)
Fixpoint holds (c : bound) (r : row) : bool :=
  match c with
  | BEq k v => sql_eq (cell r k) v
  | BGte k v => sql_ge (cell r k) v
  | BLte k v => sql_le (cell r k) v
  | BAnd cs => forallb (fun c => holds c r) cs
  end.

(** *** ORDER BY ... DESC *)

(** The sort key of a cell of a timestamp or integer column, NULL having
    none.  Every ORDER BY of the storage layer is on a timestamp column. *)
Definition order_key (v : sqlval) : option Z :=
  match v with
  | STimestamp t => Some t
  | SInt n => Some n
  | _ => None
  end.

(** [null_high a b]: [a] sorts no later than [b] ascending, NULLs last. *)
Definition null_high (a b : option Z) : Prop :=
  match a, b with
  | _, None => True
  | None, Some _ => False
  | Some x, Some y => x ≤ y
  end.

(** [desc_order k r1 r2]: [r1] may come before [r2] under ORDER BY [k] DESC,
    which puts NULLs first and then the larger keys. *)
Definition desc_order (k : string) (r1 r2 : row) : Prop :=
  null_high (order_key (cell r2 k)) (order_key (cell r1 k)).

#[export] Instance null_high_dec a b : Decision (null_high a b).
Proof. destruct a, b; simpl; apply _. Defined.

#[export] Instance desc_order_dec k : RelDecision (desc_order k).
Proof. intros r1 r2. unfold desc_order. apply _. Defined.

(** The order of rows with equal keys is left open by SQL; the model fixes
    it by sorting with a merge sort. *)
Definition orderBy_desc (k : string) (rs : list row) : list row :=
  merge_sort (desc_order k) rs.

(** *** LIMIT *)

Definition limit_out_of_range : Error :=
  mkError "error" "value out of range for type bigint".

(** The query builder writes a LIMIT clause for a number that is at least
    0, and none for a negative number or NaN; the server reads the count
    as a 64-bit integer. *)
Definition apply_limit {A} (n : number) (rs : list A) : outcome (list A) :=
  match n with
  | NaN => Return rs
  | Num z =>
      if z <? 0 then Return rs
      else if z <? 2 ^ 63 then Return (take (Z.to_nat z) rs)
      else Throw limit_out_of_range
  end.

(** *** SELECT *)

(** [db.select().from(t).where(c)], then [.orderBy(desc(k))] and
    [.limit(n)] where the query has them. *)
Definition select (db : DB) (t : table) (c : cond) (order : option string)
    (limit : option number) : outcome (list row) :=
  b ← bind t c;
  let rows := List.filter (holds b) (rows_of db (tbl_name t)) in
  let rows := match order with
              | Some k => orderBy_desc k rows
              | None => rows
              end in
  match limit with
  | Some n => apply_limit n rows
  | None => Return rows
  end.

(** *** Constraints *)

Definition not_null_violation (c : column) (r : row) : bool :=
  col_notNull c && is_null (cell r (col_key c)).

(** NULLs never collide: [sql_eq] is false on them. *)
Definition unique_violation (others : list row) (c : column) (r : row) : bool :=
  col_unique c
  && existsb (fun o => sql_eq (cell o (col_key c)) (cell r (col_key c))) others.

Definition fk_violation (db : DB) (c : column) (r : row) : bool :=
  match col_references c with
  | None => false
  | Some (tbl, col) =>
      negb (is_null (cell r (col_key c)))
      && negb (existsb (fun o => sql_eq (cell o col) (cell r (col_key c)))
                       (rows_of db tbl))
  end.

Definition not_null_error (c : column) : Error :=
  mkError "error"
    ("null value in column " +:+ col_key c +:+ " violates not-null constraint").
Definition unique_error (c : column) : Error :=
  mkError "error"
    ("duplicate key value violates unique constraint on " +:+ col_key c).
Definition fk_error (c : column) : Error :=
  mkError "error"
    ("insert or update violates foreign key constraint on " +:+ col_key c).

Definition null_check (cols : list column) (r : row) : option Error :=
  not_null_error <$> List.find (fun c => not_null_violation c r) cols.

(** The first constraint among those of [cols] that [r] violates, [others]
    being the rows [r] must not collide with: NOT NULL first, then UNIQUE,
    then REFERENCES. *)
Definition violation (db : DB) (others : list row) (cols : list column)
    (r : row) : option Error :=
  match null_check cols r with
  | Some e => Some e
  | None =>
      match List.find (fun c => unique_violation others c r) cols with
      | Some c => Some (unique_error c)
      | None => fk_error <$> List.find (fun c => fk_violation db c r) cols
      end
  end.

(** *** INSERT *)

Definition default_cell (now : Z) (uuid : string) (next : Z) (c : column)
  : sqlval :=
  match col_default c with
  | NoDefault => SNull
  | DefaultSerial => SInt next
  | DefaultNow => STimestamp now
  | DefaultRandomUuid => SText uuid
  | DefaultValue v => v
  end.

(** A property that is [undefined] asks for the column's DEFAULT. *)
Definition proposed_cell (now : Z) (uuid : string) (next : Z) (data : object)
    (c : column) : outcome sqlval :=
  match data !! col_key c with
  | None => Return (default_cell now uuid next c)
  | Some v => encode_for c v
  end.

Fixpoint proposed_row (now : Z) (uuid : string) (next : Z)
    (cols : list column) (data : object) : outcome row :=
  match cols with
  | [] => Return ∅
  | c :: cs =>
      v ← proposed_cell now uuid next data c;
      r ← proposed_row now uuid next cs data;
      Return (<[col_key c := v]> r)
  end.

Definition draws_sequence (t : table) (data : object) : bool :=
  existsb (fun c => match col_default c with
                    | DefaultSerial => bool_decide (data !! col_key c = None)
                    | _ => false
                    end) (tbl_columns t).

(** A sequence value drawn for a row stays drawn when the row is refused. *)
Definition draw (t : table) (data : object) (db : DB) : DB :=
  if draws_sequence t data then advance db (tbl_name t) else db.

(** [db.insert(t).values(data).returning()], the single row it returns.
    [now] and [uuid] are what [now()] and [gen_random_uuid()] yield. *)
Definition insert (now : Z) (uuid : string) (t : table) (data : object)
    (db : DB) : DB * outcome row :=
  let name := tbl_name t in
  match proposed_row now uuid (nextval db name) (tbl_columns t) data with
  | Throw e => (db, Throw e)
  | Return r =>
      let db' := draw t data db in
      match violation db' (rows_of db name) (tbl_columns t) r with
      | Some e => (db', Throw e)
      | None => (set_rows db' name (rows_of db name ++ [r]), Return r)
      end
  end.

(** *** SET clauses *)

(** The assignments of a [set] object: its defined properties that name a
    column, in column order. *)
Fixpoint assignments (cols : list column) (set : object)
  : outcome (list (string * sqlval)) :=
  match cols with
  | [] => Return []
  | c :: cs =>
      match set !! col_key c with
      | None => assignments cs set
      | Some v =>
          s ← encode_for c v;
          rest ← assignments cs set;
          Return ((col_key c, s) :: rest)
      end
  end.

Definition assigned (cols : list column) (set : object) : list column :=
  List.filter (fun c => bool_decide (is_Some (set !! col_key c))) cols.

Definition assign (asg : list (string * sqlval)) (r : row) : row :=
  list_to_map asg ∪ r.

Definition no_values_to_set : Error := mkError "Error" "No values to set".

(** *** INSERT ... ON CONFLICT (target) DO UPDATE SET ... *)

Definition no_arbiter : Error :=
  mkError "error"
    "there is no unique or exclusion constraint matching the ON CONFLICT specification".

(** The first row that collides with [r] on column [k], with the rows
    before and after it. *)
Fixpoint find_conflict (k : string) (r : row) (before rest : list row)
  : option (list row * row * list row) :=
  match rest with
  | [] => None
  | o :: rest' =>
      if sql_eq (cell o k) (cell r k) then Some (before, o, rest')
      else find_conflict k r (before ++ [o]) rest'
  end.

Definition is_arbiter (t : table) (target : string) : bool :=
  match find_column t target with
  | Some c => col_unique c
  | None => false
  end.

(** [db.insert(t).values(data).onConflictDoUpdate({target, set}).returning()].
    The server infers the arbiter index from the conflict target and refuses
    the statement when no unique index covers it.  With an arbiter, the
    NOT NULL constraints of the proposed row are checked first; then the
    row colliding on the target, if there is one, is updated with [set],
    and otherwise the proposed row is inserted. *)
Definition insert_onConflictDoUpdate (now : Z) (uuid : string) (t : table)
    (data : object) (target : string) (set : object) (db : DB)
  : DB * outcome row :=
  let name := tbl_name t in
  let cols := tbl_columns t in
  match proposed_row now uuid (nextval db name) cols data,
        assignments cols set with
  | Throw e, _ => (db, Throw e)
  | Return _, Throw e => (db, Throw e)
  | Return r, Return asg =>
      if negb (is_arbiter t target) then (db, Throw no_arbiter)
      else
        let db' := draw t data db in
        match null_check cols r with
        | Some e => (db', Throw e)
        | None =>
            match find_conflict target r [] (rows_of db name) with
            | Some (before, old, after) =>
                let new := assign asg old in
                match violation db' (before ++ after) (assigned cols set) new with
                | Some e => (db', Throw e)
                | None =>
                    (set_rows db' name (before ++ new :: after), Return new)
                end
            | None =>
                match violation db' (rows_of db name) cols r with
                | Some e => (db', Throw e)
                | None =>
                    (set_rows db' name (rows_of db name ++ [r]), Return r)
                end
            end
        end
  end.

(** *** UPDATE ... SET ... WHERE *)

Fixpoint update_rows (check : list row -> row -> option Error)
    (upd : row -> row) (p : row -> bool) (done todo : list row)
  : outcome (list row) :=
  match todo with
  | [] => Return done
  | r :: rest =>
      if p r then
        throw_if (check (done ++ rest) (upd r))
                 (update_rows check upd p (done ++ [upd r]) rest)
      else update_rows check upd p (done ++ [r]) rest
  end.

(** [db.update(t).set(set).where(c)]: the statement changes every row the
    condition keeps, or none at all when a changed row breaks a
    constraint. *)
Definition update (t : table) (set : object) (c : cond) (db : DB)
  : DB * outcome unit :=
  let name := tbl_name t in
  match assignments (tbl_columns t) set with
  | Throw e => (db, Throw e)
  | Return [] => (db, Throw no_values_to_set)
  | Return asg =>
      match bind t c with
      | Throw e => (db, Throw e)
      | Return b =>
          match update_rows
                  (fun others => violation db others
                                   (assigned (tbl_columns t) set))
                  (assign asg) (holds b) [] (rows_of db name) with
          | Throw e => (db, Throw e)
          | Return rs => (set_rows db name rs, Return ())
          end
      end
  end.

(** *** Column and operator names of the query builder *)

Module dsl.


Definition plain (k : string) (ty : coltype) : column :=
  mkColumn k ty false NoDefault false None.
Definition serial k : column := mkColumn k TSerial true DefaultSerial false None.
Definition uuid k := plain k TUuid.
Definition integer k := plain k TInteger.
Definition decimal k p s := plain k (TDecimal p s).
Definition varchar k len := plain k (TVarchar len).
Definition text k := plain k TText.
Definition text_array k := plain k TTextArray.
Definition jsonb k := plain k TJsonb.
Definition timestamp k := plain k TTimestamp.
Definition date k := plain k TDate.
Definition boolean k := plain k TBoolean.
Definition pgEnum vals k := plain k (TEnum vals).

Definition notNull (c : column) : column :=
  mkColumn (col_key c) (col_type c) true (col_default c) (col_unique c)
           (col_references c).
Definition unique (c : column) : column :=
  mkColumn (col_key c) (col_type c) (col_notNull c) (col_default c) true
           (col_references c).
Definition primaryKey (c : column) : column := unique (notNull c).
Definition with_default (d : coldefault) (c : column) : column :=
  mkColumn (col_key c) (col_type c) (col_notNull c) d (col_unique c)
           (col_references c).
Definition defaultNow := with_default DefaultNow.
Definition references (tbl col : string) (c : column) : column :=
  mkColumn (col_key c) (col_type c) (col_notNull c) (col_default c)
           (col_unique c) (Some (tbl, col)).

Definition eq := CEq.
Definition gte := CGte.
Definition lte := CLte.
Definition and (cs : list cond) := CAnd cs.
Definition desc (k : string) : string := k.

End dsl.

End Pg.

Export Pg.

(* ===================================================================== *)
(** ** Validation schemas                                                  *)
(* ===================================================================== *)

(** The insert schema the validator derives from a table declaration, and
    its [parse]. *)
Module Zod.

Inductive ztype :=
| ZString (max : option nat)
| ZUuid
| ZInt
| ZBoolean
| ZDate
| ZJson
| ZStringArray
| ZEnum (vals : list string).

Record zfield := mkField {
  zf_key : string;
  zf_type : ztype;
  zf_nullable : bool;
  zf_optional : bool
}.

Abbreviation schema := (list zfield).

Definition is_string (v : value) : bool :=
  match v with VStr _ => true | _ => false end.

(** The check [.max(n)] of a string, on its [length]. *)
Definition within (max : option nat) (s : string) : bool :=
  match max with
  | None => true
  | Some n => Nat.leb (code_units s) n
  end.

(** Whether a value that is not [undefined] passes the check of a type.
    The JSON type is the only one that takes [null] by itself. *)
Definition accepts (z : ztype) (v : value) : bool :=
  match z, v with
  | ZString max, VStr s => within max s
  | ZUuid, VStr s => is_uuid s
  | ZInt, VNum (Num n) => int4 n
  | ZBoolean, VBool _ => true
  | ZDate, VDate (Some _) => true
  | ZJson, (VNull | VStr _ | VBool _ | VNum (Num _) | VArr _ | VObj _) => true
  | ZStringArray, VArr l => forallb is_string l
  | ZEnum vals, VStr s => bool_decide (s ∈ vals)
  | _, _ => false
  end.

Definition is_VNull (v : value) : bool :=
  match v with VNull => true | _ => false end.

Definition ztype_of (ty : coltype) : ztype :=
  match ty with
  | TSerial | TInteger => ZInt
  | TUuid => ZUuid
  | TDecimal _ _ | TText | TDate => ZString None
  | TVarchar len => ZString len
  | TTextArray => ZStringArray
  | TJsonb => ZJson
  | TTimestamp => ZDate
  | TBoolean => ZBoolean
  | TEnum vals => ZEnum vals
  end.

(** A column that may be NULL gives a nullable, optional field; a NOT NULL
    column with a default gives an optional one; any other is required. *)
Definition field_of (c : column) : zfield :=
  mkField (col_key c) (ztype_of (col_type c))
          (negb (col_notNull c))
          (negb (col_notNull c) || has_default c).

Definition createInsertSchema (t : table) : schema :=
  field_of <$> tbl_columns t.

Definition omit (keys : list string) (s : schema) : schema :=
  List.filter (fun f => negb (bool_decide (zf_key f ∈ keys))) s.

Definition ZodError (k reason : string) : Error :=
  mkError "ZodError" (k +:+ ": " +:+ reason).

Definition parse_field (f : zfield) (input : object) : outcome (option value) :=
  match input !! zf_key f with
  | None =>
      if zf_optional f then Return None
      else Throw (ZodError (zf_key f) "Required")
  | Some v =>
      if (zf_nullable f && is_VNull v) || accepts (zf_type f) v
      then Return (Some v)
      else Throw (ZodError (zf_key f) "Invalid input")
  end.

(** [schema.parse(input)]: the object of the fields that passed, keys the
    schema does not name stripped, or a thrown [ZodError]. *)
Fixpoint parse (s : schema) (input : object) : outcome object :=
  match s with
  | [] => Return ∅
  | f :: fs =>
      o ← parse_field f input;
      rest ← parse fs input;
      Return (match o with
              | Some v => <[zf_key f := v]> rest
              | None => rest
              end)
  end.

End Zod.

Export Zod.

(* ===================================================================== *)
(** ** Table declarations and insert schemas ([shared/schema.ts])          *)
(* ===================================================================== *)

Module Schema.
Import Pg.dsl.

Definition appointmentStatusEnum :=
  pgEnum ["scheduled"; "completed"; "cancelled"; "rescheduled"].
Definition userTypeEnum := pgEnum ["patient"; "doctor"; "admin"].

Definition references_users := references "users" "id".

Definition users : table := mkTable "users" [
  with_default DefaultRandomUuid (primaryKey (uuid "id"));
  unique (varchar "email" None);
  varchar "firstName" None;
  varchar "lastName" None;
  varchar "profileImageUrl" None;
  with_default (DefaultValue (SText "patient")) (userTypeEnum "userType");
  defaultNow (timestamp "createdAt");
  defaultNow (timestamp "updatedAt")
].

Definition userProfiles : table := mkTable "user_profiles" [
  primaryKey (serial "id");
  notNull (references_users (uuid "userId"));
  integer "age";
  decimal "weight" 5 2;
  decimal "height" 5 2;
  varchar "sex" (Some 10%nat);
  varchar "bloodType" (Some 5%nat);
  jsonb "emergencyContact";
  text_array "medicalConditions";
  text_array "allergies";
  text_array "medications";
  jsonb "familyHistory";
  defaultNow (timestamp "createdAt");
  defaultNow (timestamp "updatedAt")
].

Definition hrvData : table := mkTable "hrv_data" [
  primaryKey (serial "id");
  notNull (references_users (uuid "userId"));
  defaultNow (timestamp "timestamp");
  decimal "rmssd" 8 3;
  decimal "pnn50" 5 2;
  integer "heartRate";
  integer "stressLevel";
  varchar "sourceDevice" (Some 100%nat);
  varchar "sourceApi" (Some 50%nat);
  jsonb "rawData"
].

Definition foodEntries : table := mkTable "food_entries" [
  primaryKey (serial "id");
  notNull (references_users (uuid "userId"));
  defaultNow (timestamp "timestamp");
  varchar "mealType" (Some 20%nat);
  text "description";
  varchar "imageUrl" None;
  text "voiceTranscript";
  jsonb "aiAnalysis";
  integer "calories";
  jsonb "nutrients";
  integer "moodBefore";
  integer "moodAfter";
  integer "energyBefore";
  integer "energyAfter";
  integer "digestionRating"
].

Definition medicalDocuments : table := mkTable "medical_documents" [
  primaryKey (serial "id");
  notNull (references_users (uuid "userId"));
  notNull (varchar "documentType" (Some 50%nat));
  notNull (varchar "title" (Some 200%nat));
  notNull (varchar "fileUrl" None);
  varchar "encryptedKey" None;
  defaultNow (timestamp "uploadDate");
  date "documentDate";
  varchar "doctorName" (Some 100%nat);
  varchar "facilityName" (Some 200%nat);
  text_array "tags";
  with_default (DefaultValue (SBool false)) (boolean "isShared")
].

Definition appointments : table := mkTable "appointments" [
  primaryKey (serial "id");
  notNull (references_users (uuid "patientId"));
  notNull (references_users (uuid "doctorId"));
  notNull (timestamp "appointmentDate");
  with_default (DefaultValue (SInt 30)) (integer "duration");
  with_default (DefaultValue (SText "scheduled")) (appointmentStatusEnum "status");
  varchar "type" (Some 50%nat);
  text "notes";
  varchar "videoCallUrl" None;
  decimal "price" 10 2;
  with_default (DefaultValue (SBool false)) (boolean "isPaid");
  defaultNow (timestamp "createdAt");
  defaultNow (timestamp "updatedAt")
].

Definition aiConversations : table := mkTable "ai_conversations" [
  primaryKey (serial "id");
  notNull (references_users (uuid "userId"));
  with_default DefaultRandomUuid (uuid "sessionId");
  notNull (jsonb "messages");
  text_array "symptoms";
  jsonb "recommendations";
  with_default (DefaultValue (SBool false)) (boolean "escalationFlag");
  defaultNow (timestamp "createdAt");
  defaultNow (timestamp "updatedAt")
].

Definition insertUserSchema : schema :=
  omit ["id"; "createdAt"; "updatedAt"] (createInsertSchema users).

Definition insertUserProfileSchema : schema :=
  omit ["id"; "createdAt"; "updatedAt"] (createInsertSchema userProfiles).

Definition insertFoodEntrySchema : schema :=
  omit ["id"; "timestamp"] (createInsertSchema foodEntries).

Definition insertAppointmentSchema : schema :=
  omit ["id"; "createdAt"; "updatedAt"] (createInsertSchema appointments).

Definition insertMedicalDocumentSchema : schema :=
  omit ["id"; "uploadDate"] (createInsertSchema medicalDocuments).

End Schema.

Export Schema.

(* ===================================================================== *)
(** ** The world of a request, and the monad of the handlers               *)
(* ===================================================================== *)

(** What is sent to the analysis provider: the pinned model, the token cap,
    which of the two fixed system prompts, and the image data or the
    description the user message carries.  The wording of the prompts is
    not modelled. *)
Inductive prompt := FoodImagePrompt | FoodTextPrompt.

Record ai_request := mkRequest {
  model : string;
  max_tokens : Z;
  system : prompt;
  user_input : value
}.

(** A segment of the provider's reply; [text] is [undefined] on a segment
    that is not text. *)
Record content_block := mkBlock { text : option string }.

Record ai_response := mkReply { content : list content_block }.

(** What lies outside the program during one request: the two clocks, the
    uuid the server would generate, the built-in parsers, and the answer of
    the provider to each request. *)
Record Env := mkEnv {
  js_now : Z;
  pg_now : Z;
  pg_uuid : string;
  Date_parse : string → Date;
  JSON_parse : string → outcome value;
  messages_create : ai_request → outcome ai_response
}.

(** An outbound call: a statement sent to the database, named by its table,
    or a call of [messages.create] on the provider's client.  The client
    transmits a request again by itself after some failures (twice at most,
    as it is configured here): a [Completion] stands for the call, whatever
    the number of transmissions, and [messages_create] of the environment
    for what the call gives in the end. *)
Inductive call :=
| Statement (tbl : string)
| Completion (req : ai_request).

Record World := mkWorld {
  store : DB;
  calls : list call;
  console : list (string * Error)
}.

Definition M (A : Type) : Type := Env → World → outcome A * World.

#[export] Instance M_ret : MRet M := fun A a _ w => (Return a, w).
#[export] Instance M_bind : MBind M := fun A B f m env w =>
  match m env w with
  | (Return a, w') => f a env w'
  | (Throw e, w') => (Throw e, w')
  end.

Definition throw {A} (e : Error) : M A := fun _ w => (Throw e, w).

Definition lift {A} (o : outcome A) : M A := fun _ w => (o, w).

(** [try { body } catch (error) { handler }] *)
Definition try_catch {A} (body : M A) (handler : Error → M A) : M A :=
  fun env w =>
    match body env w with
    | (Return a, w') => (Return a, w')
    | (Throw e, w') => handler e env w'
    end.

Definition ask : M Env := fun env w => (Return env, w).

Definition console_error (label : string) (error : Error) : M unit :=
  fun _ w =>
    (Return (), mkWorld (store w) (calls w) (console w ++ [(label, error)])).

(** One statement handed to the query builder, which sends it to the
    database; the call is recorded also when the builder refuses a
    parameter and sends nothing. *)
Definition statement {A} (t : table) (run : Env → DB → DB * outcome A) : M A :=
  fun env w =>
    let '(db', r) := run env (store w) in
    (r, mkWorld db' (calls w ++ [Statement (tbl_name t)]) (console w)).

(** One call of [messages.create]. *)
Definition completion (req : ai_request) : M ai_response :=
  fun env w =>
    (messages_create env req,
     mkWorld (store w) (calls w ++ [Completion req]) (console w)).

(* ===================================================================== *)
(** ** Storage layer ([server/storage.ts])                                 *)
(* ===================================================================== *)

Module DatabaseStorage.
Import Pg.dsl.

(** [new Date()] as a property value. *)
Definition new_Date (env : Env) : value := VDate (Some (js_now env)).

Definition run_insert (t : table) (data : object) : M row :=
  statement t (fun env => insert (pg_now env) (pg_uuid env) t data).

Definition run_select (t : table) (c : cond) (order : option string)
    (limit : option number) : M (list row) :=
  statement t (fun _ db => (db, select db t c order limit)).

Definition getUser (id : string) : M (option row) :=
  rows ← run_select users (eq "id" (VStr id)) None None;
  mret (head rows).

Definition getUserByEmail (email : string) : M (option row) :=
  rows ← run_select users (eq "email" (VStr email)) None None;
  mret (head rows).

Definition upsertUser (userData : object) : M row :=
  statement users (fun env =>
    insert_onConflictDoUpdate (pg_now env) (pg_uuid env) users userData
      "email" (<["updatedAt" := new_Date env]> userData)).

Definition getUserProfile (userId : string) : M (option row) :=
  rows ← run_select userProfiles (eq "userId" (VStr userId)) None None;
  mret (head rows).

Definition upsertUserProfile (profileData : object) : M row :=
  statement userProfiles (fun env =>
    insert_onConflictDoUpdate (pg_now env) (pg_uuid env) userProfiles
      profileData "userId" (<["updatedAt" := new_Date env]> profileData)).

Definition createFoodEntry (entryData : object) : M row :=
  run_insert foodEntries entryData.

Definition getFoodEntries (userId : string) (limit : option number)
  : M (list row) :=
  let limit := default (Num 50) limit in
  run_select foodEntries (eq "userId" (VStr userId))
    (Some (desc "timestamp")) (Some limit).

Definition getFoodEntriesByDateRange (userId : string)
    (startDate endDate : Date) : M (list row) :=
  run_select foodEntries
    (and [eq "userId" (VStr userId);
          gte "timestamp" (VDate startDate);
          lte "timestamp" (VDate endDate)])
    (Some (desc "timestamp")) None.

Definition createHRVData (data : object) : M row :=
  run_insert hrvData data.

Definition getHRVData (userId : string) (limit : option number)
  : M (list row) :=
  let limit := default (Num 100) limit in
  run_select hrvData (eq "userId" (VStr userId))
    (Some (desc "timestamp")) (Some limit).

Definition createAppointment (appointmentData : object) : M row :=
  run_insert appointments appointmentData.

Definition getAppointments (userId : string) : M (list row) :=
  run_select appointments (eq "patientId" (VStr userId))
    (Some (desc "appointmentDate")) None.

(** [status] is whatever the caller passed, [None] when [undefined]; a
    property of the [set] object that is [undefined] is left out of the SET
    clause. *)
Definition updateAppointmentStatus (id : number) (status : option value)
  : M unit :=
  statement appointments (fun env =>
    update appointments
      (<["updatedAt" := new_Date env]>
         (match status with
          | Some s => {["status" := s]}
          | None => ∅
          end))
      (eq "id" (VNum id))).

Definition createMedicalDocument (documentData : object) : M row :=
  run_insert medicalDocuments documentData.

Definition getMedicalDocuments (userId : string) : M (list row) :=
  run_select medicalDocuments (eq "userId" (VStr userId))
    (Some (desc "uploadDate")) None.

Definition createAIConversation (conversationData : object) : M row :=
  run_insert aiConversations conversationData.

Definition getAIConversations (userId : string) : M (list row) :=
  run_select aiConversations (eq "userId" (VStr userId))
    (Some (desc "createdAt")) None.

End DatabaseStorage.

(** [export const storage = new DatabaseStorage()] *)
Module storage := DatabaseStorage.

(* ===================================================================== *)
(** ** Analysis collaborator ([server/anthropic.ts])                       *)
(* ===================================================================== *)

Module Anthropic.

Definition DEFAULT_MODEL_STR : string := "claude-sonnet-4-20250514".

Definition TypeError (m : string) : Error := mkError "TypeError" m.

(** [(response.content[0] as any).text]: reading [text] of a missing first
    segment throws; a segment without text reads [undefined], which
    [JSON.parse] takes in its text form. *)
Definition first_text (response : ai_response) : outcome string :=
  match content response with
  | [] =>
      Throw (TypeError "Cannot read properties of undefined (reading 'text')")
  | b :: _ => Return (default "undefined" (text b))
  end.

Definition parse_reply (response : ai_response) : M value :=
  t ← lift (first_text response);
  env ← ask;
  lift (JSON_parse env t).

Definition analyzeFoodImage (base64Image : value) : M value :=
  try_catch
    (response ← completion
       (mkRequest DEFAULT_MODEL_STR 1500 FoodImagePrompt base64Image);
     parse_reply response)
    (fun error =>
       console_error "Food analysis error:" error;;
       throw (mkError "Error"
                ("Failed to analyze food image: " +:+ err_message error))).

Definition analyzeFoodText (description : value) : M value :=
  try_catch
    (response ← completion
       (mkRequest DEFAULT_MODEL_STR 1500 FoodTextPrompt description);
     parse_reply response)
    (fun error =>
       console_error "Food text analysis error:" error;;
       throw (mkError "Error"
                ("Failed to analyze food description: " +:+ err_message error))).

End Anthropic.

(* ===================================================================== *)
(** ** Route layer ([server/routes.ts])                                    *)
(* ===================================================================== *)

Module Routes.
Import Anthropic.

(** A request as the handlers read it.  The body is the object the JSON
    body parser produced (the empty object when none was sent); query and
    route parameters are strings when present. *)
Record Request := mkReq {
  userId : string;
  body : object;
  query : gmap string string;
  params : gmap string string
}.

(** What [res.json] is given. *)
Inductive payload :=
| Undefined
| Message (message : string)
| Row (r : row)
| Rows (rs : list row)
| Json (v : value).

Record Response := mkRes { status : Z; sent : payload }.

Definition res_json (p : payload) : M Response := mret (mkRes 200 p).

Definition res_status_json (code : Z) (p : payload) : M Response :=
  mret (mkRes code p).

Definition optional_row (o : option row) : payload :=
  match o with
  | Some r => Row r
  | None => Undefined
  end.

(** Mock authentication: every request is stamped with one fixed user id. *)
Definition MOCK_USER_ID : string := "550e8400-e29b-41d4-a716-446655440000".

Definition requireAuth (next : Request → M Response) (req : Request)
  : M Response :=
  next (mkReq MOCK_USER_ID (body req) (query req) (params req)).

(** [{ ...req.body, key: req.userId }] *)
Definition with_owner (key : string) (req : Request) : object :=
  <[key := VStr (userId req)]> (body req).

(** [req.query.limit ? parseInt(req.query.limit) : undefined] *)
Definition query_limit (req : Request) : option number :=
  let limit := query req !! "limit" in
  if truthy_str limit then Some (parseInt (default "undefined" limit))
  else None.

(** [new Date(s)]; of [undefined] it is the Invalid Date. *)
Definition new_Date_of (env : Env) (s : option string) : Date :=
  s ≫= Date_parse env.

Definition get_profile : Request → M Response :=
  requireAuth (fun req =>
    try_catch
      (profile ← storage.getUserProfile (userId req);
       res_json (optional_row profile))
      (fun error =>
         console_error "Error fetching profile:" error;;
         res_status_json 500 (Message "Failed to fetch profile"))).

Definition post_profile : Request → M Response :=
  requireAuth (fun req =>
    try_catch
      (profileData ← lift (parse insertUserProfileSchema
                             (with_owner "userId" req));
       profile ← storage.upsertUserProfile profileData;
       res_json (Row profile))
      (fun error =>
         console_error "Error updating profile:" error;;
         res_status_json 500 (Message "Failed to update profile"))).

Definition get_food_entries : Request → M Response :=
  requireAuth (fun req =>
    try_catch
      (let limit := query_limit req in
       entries ← storage.getFoodEntries (userId req) limit;
       res_json (Rows entries))
      (fun error =>
         console_error "Error fetching food entries:" error;;
         res_status_json 500 (Message "Failed to fetch food entries"))).

Definition post_food_entries : Request → M Response :=
  requireAuth (fun req =>
    try_catch
      (entryData ← lift (parse insertFoodEntrySchema
                           (with_owner "userId" req));
       entry ← storage.createFoodEntry entryData;
       res_json (Row entry))
      (fun error =>
         console_error "Error creating food entry:" error;;
         res_status_json 500 (Message "Failed to create food entry"))).

Definition get_food_entries_range : Request → M Response :=
  requireAuth (fun req =>
    try_catch
      (let startDate := query req !! "startDate" in
       let endDate := query req !! "endDate" in
       if negb (truthy_str startDate) || negb (truthy_str endDate)
       then res_status_json 400
              (Message "Start date and end date are required")
       else
         env ← ask;
         entries ← storage.getFoodEntriesByDateRange (userId req)
                     (new_Date_of env startDate) (new_Date_of env endDate);
         res_json (Rows entries))
      (fun error =>
         console_error "Error fetching food entries by date range:" error;;
         res_status_json 500 (Message "Failed to fetch food entries"))).

(** In the two analysis handlers the value passed on is present whenever
    the guard lets it through; [VNull] stands for it otherwise. *)
Definition post_analyze_food_image : Request → M Response :=
  requireAuth (fun req =>
    try_catch
      (let base64Image := body req !! "base64Image" in
       if negb (truthy_opt base64Image)
       then res_status_json 400 (Message "Base64 image is required")
       else
         analysis ← analyzeFoodImage (default VNull base64Image);
         res_json (Json analysis))
      (fun error =>
         console_error "Error analyzing food image:" error;;
         res_status_json 500 (Message "Failed to analyze food image"))).

Definition post_analyze_food_text : Request → M Response :=
  requireAuth (fun req =>
    try_catch
      (let description := body req !! "description" in
       if negb (truthy_opt description)
       then res_status_json 400 (Message "Food description is required")
       else
         analysis ← analyzeFoodText (default VNull description);
         res_json (Json analysis))
      (fun error =>
         console_error "Error analyzing food text:" error;;
         res_status_json 500 (Message "Failed to analyze food description"))).

Definition get_hrv_data : Request → M Response :=
  requireAuth (fun req =>
    try_catch
      (let limit := query_limit req in
       data ← storage.getHRVData (userId req) limit;
       res_json (Rows data))
      (fun error =>
         console_error "Error fetching HRV data:" error;;
         res_status_json 500 (Message "Failed to fetch HRV data"))).

Definition post_hrv_data : Request → M Response :=
  requireAuth (fun req =>
    try_catch
      (let hrvData := with_owner "userId" req in
       data ← storage.createHRVData hrvData;
       res_json (Row data))
      (fun error =>
         console_error "Error creating HRV data:" error;;
         res_status_json 500 (Message "Failed to create HRV data"))).

Definition get_appointments : Request → M Response :=
  requireAuth (fun req =>
    try_catch
      (appointments ← storage.getAppointments (userId req);
       res_json (Rows appointments))
      (fun error =>
         console_error "Error fetching appointments:" error;;
         res_status_json 500 (Message "Failed to fetch appointments"))).

Definition post_appointments : Request → M Response :=
  requireAuth (fun req =>
    try_catch
      (appointmentData ← lift (parse insertAppointmentSchema
                                 (with_owner "patientId" req));
       appointment ← storage.createAppointment appointmentData;
       res_json (Row appointment))
      (fun error =>
         console_error "Error creating appointment:" error;;
         res_status_json 500 (Message "Failed to create appointment"))).

(** A route parameter is always present on a matched route; the empty
    string stands for it otherwise. *)
Definition patch_appointment_status : Request → M Response :=
  requireAuth (fun req =>
    try_catch
      (let id := default "" (params req !! "id") in
       let status := body req !! "status" in
       storage.updateAppointmentStatus (parseInt id) status;;
       res_json (Message "Appointment status updated"))
      (fun error =>
         console_error "Error updating appointment status:" error;;
         res_status_json 500 (Message "Failed to update appointment status"))).

Definition get_medical_documents : Request → M Response :=
  requireAuth (fun req =>
    try_catch
      (documents ← storage.getMedicalDocuments (userId req);
       res_json (Rows documents))
      (fun error =>
         console_error "Error fetching medical documents:" error;;
         res_status_json 500 (Message "Failed to fetch medical documents"))).

Definition post_medical_documents : Request → M Response :=
  requireAuth (fun req =>
    try_catch
      (documentData ← lift (parse insertMedicalDocumentSchema
                              (with_owner "userId" req));
       document ← storage.createMedicalDocument documentData;
       res_json (Row document))
      (fun error =>
         console_error "Error creating medical document:" error;;
         res_status_json 500 (Message "Failed to create medical document"))).

Definition get_ai_conversations : Request → M Response :=
  requireAuth (fun req =>
    try_catch
      (conversations ← storage.getAIConversations (userId req);
       res_json (Rows conversations))
      (fun error =>
         console_error "Error fetching AI conversations:" error;;
         res_status_json 500 (Message "Failed to fetch AI conversations"))).

Definition post_ai_conversations : Request → M Response :=
  requireAuth (fun req =>
    try_catch
      (let conversationData := with_owner "userId" req in
       conversation ← storage.createAIConversation conversationData;
       res_json (Row conversation))
      (fun error =>
         console_error "Error creating AI conversation:" error;;
         res_status_json 500 (Message "Failed to create AI conversation"))).

(** [registerRoutes]: one handler per method and path. *)
Definition registerRoutes : list (string * string * (Request → M Response)) :=
  [ ("GET", "/api/profile", get_profile);
    ("POST", "/api/profile", post_profile);
    ("GET", "/api/food-entries", get_food_entries);
    ("POST", "/api/food-entries", post_food_entries);
    ("GET", "/api/food-entries/range", get_food_entries_range);
    ("POST", "/api/analyze-food-image", post_analyze_food_image);
    ("POST", "/api/analyze-food-text", post_analyze_food_text);
    ("GET", "/api/hrv-data", get_hrv_data);
    ("POST", "/api/hrv-data", post_hrv_data);
    ("GET", "/api/appointments", get_appointments);
    ("POST", "/api/appointments", post_appointments);
    ("PATCH", "/api/appointments/:id/status", patch_appointment_status);
    ("GET", "/api/medical-documents", get_medical_documents);
    ("POST", "/api/medical-documents", post_medical_documents);
    ("GET", "/api/ai-conversations", get_ai_conversations);
    ("POST", "/api/ai-conversations", post_ai_conversations) ].

End Routes.

(* ===================================================================== *)
(** ** Vocabulary of the properties                                        *)
(* ===================================================================== *)

Import Routes Anthropic.

(** [r] belongs to the user [uid]: its [userId] cell holds that uuid. *)
Definition owned_by (uid : string) (r : row) : Prop :=
  match cell r "userId" with
  | SText u => u = lower uid
  | _ => False
  end.

(** [a <= b] on two [Date]s, false as soon as one is the Invalid Date. *)
Definition Date_le (a b : Date) : Prop :=
  match a, b with
  | Some x, Some y => x ≤ y
  | _, _ => False
  end.

(** A [Date] the server takes as a timestamp: a valid one whose ISO text
    has a year of four digits, from 0001-01-01T00:00:00.000Z up to
    9999-12-31T23:59:59.999Z.  [toISOString] writes any other year with a
    sign and six digits, or as 0000, which PostgreSQL refuses. *)
Definition storable (d : Date) : Prop :=
  match d with
  | Some t => -62135596800000 ≤ t < 253402300800000
  | None => False
  end.

(** [r] carries a timestamp [t] with [startDate ≤ t ≤ endDate]. *)
Definition stamped_within (startDate endDate : Date) (r : row) : Prop :=
  match cell r "timestamp", startDate, endDate with
  | STimestamp t, Some s, Some e => s ≤ t ≤ e
  | _, _, _ => False
  end.

#[export] Instance owned_by_dec uid r : Decision (owned_by uid r).
Proof. unfold owned_by. destruct (cell r "userId"); apply _. Defined.

#[export] Instance stamped_within_dec s e r : Decision (stamped_within s e r).
Proof.
  unfold stamped_within. destruct (cell r "timestamp"), s, e; apply _.
Defined.

(** [r1] and [r2] both carry a timestamp, and that of [r1] is not the
    older one. *)
Definition newer_or_same (r1 r2 : row) : Prop :=
  ∃ t1 t2, cell r1 "timestamp" = STimestamp t1
           ∧ cell r2 "timestamp" = STimestamp t2 ∧ t2 ≤ t1.

(** A limit that asks for [n] rows: [n] itself, or [dflt] when the limit
    is left [undefined]. *)
Definition asks_for (dflt : Z) (limit : option number) (n : Z) : Prop :=
  match limit with
  | None => n = dflt
  | Some l => l = Num n ∧ 0 ≤ n < 2 ^ 63
  end.

(** [rs] is what is left of [owned] once put in ORDER BY [k] DESC order and
    cut after [n] rows: the head of a sorted arrangement of [owned], [n]
    rows long or all of them when there are fewer. *)
Definition newest_first_capped (k : string) (n : Z) (owned rs : list row)
  : Prop :=
  ∃ rest, rs ++ rest ≡ₚ owned
          ∧ StronglySorted (desc_order k) (rs ++ rest)
          ∧ length rs = Nat.min (Z.to_nat n) (length owned).

(** *** Classes of routes *)

(** The POST routes that create (or upsert) a row. *)
Inductive create_route :=
| CreateProfile
| CreateFoodEntry
| CreateHRVData
| CreateAppointment
| CreateMedicalDocument
| CreateAIConversation.

Definition create_handler (route : create_route) : Request → M Response :=
  match route with
  | CreateProfile => post_profile
  | CreateFoodEntry => post_food_entries
  | CreateHRVData => post_hrv_data
  | CreateAppointment => post_appointments
  | CreateMedicalDocument => post_medical_documents
  | CreateAIConversation => post_ai_conversations
  end.

Definition create_path (route : create_route) : string :=
  match route with
  | CreateProfile => "/api/profile"
  | CreateFoodEntry => "/api/food-entries"
  | CreateHRVData => "/api/hrv-data"
  | CreateAppointment => "/api/appointments"
  | CreateMedicalDocument => "/api/medical-documents"
  | CreateAIConversation => "/api/ai-conversations"
  end.

(** The property of the row that names its owner. *)
Definition owner_key (route : create_route) : string :=
  match route with
  | CreateAppointment => "patientId"
  | _ => "userId"
  end.

Definition create_table (route : create_route) : table :=
  match route with
  | CreateProfile => userProfiles
  | CreateFoodEntry => foodEntries
  | CreateHRVData => hrvData
  | CreateAppointment => appointments
  | CreateMedicalDocument => medicalDocuments
  | CreateAIConversation => aiConversations
  end.

(** The schema the route validates against, if it validates at all. *)
Definition create_schema (route : create_route) : option schema :=
  match route with
  | CreateProfile => Some insertUserProfileSchema
  | CreateFoodEntry => Some insertFoodEntrySchema
  | CreateAppointment => Some insertAppointmentSchema
  | CreateMedicalDocument => Some insertMedicalDocumentSchema
  | CreateHRVData | CreateAIConversation => None
  end.

Definition failure_label (route : create_route) : string :=
  match route with
  | CreateProfile => "Error updating profile:"
  | CreateFoodEntry => "Error creating food entry:"
  | CreateHRVData => "Error creating HRV data:"
  | CreateAppointment => "Error creating appointment:"
  | CreateMedicalDocument => "Error creating medical document:"
  | CreateAIConversation => "Error creating AI conversation:"
  end.

Definition failure_message (route : create_route) : string :=
  match route with
  | CreateProfile => "Failed to update profile"
  | CreateFoodEntry => "Failed to create food entry"
  | CreateHRVData => "Failed to create HRV data"
  | CreateAppointment => "Failed to create appointment"
  | CreateMedicalDocument => "Failed to create medical document"
  | CreateAIConversation => "Failed to create AI conversation"
  end.

(** The routes with an explicit precondition check. *)
Inductive guarded_route :=
| FoodEntriesRange
| AnalyzeFoodImage
| AnalyzeFoodText.

Definition guarded_handler (route : guarded_route) : Request → M Response :=
  match route with
  | FoodEntriesRange => get_food_entries_range
  | AnalyzeFoodImage => post_analyze_food_image
  | AnalyzeFoodText => post_analyze_food_text
  end.

(** What the check of the route looks for is missing from the request. *)
Definition precondition_fails (route : guarded_route) (req : Request) : Prop :=
  match route with
  | FoodEntriesRange =>
      query req !! "startDate" = None ∨ query req !! "endDate" = None
  | AnalyzeFoodImage => body req !! "base64Image" = None
  | AnalyzeFoodText => body req !! "description" = None
  end.

Definition guard_message (route : guarded_route) : string :=
  match route with
  | FoodEntriesRange => "Start date and end date are required"
  | AnalyzeFoodImage => "Base64 image is required"
  | AnalyzeFoodText => "Food description is required"
  end.

(** The two analysis routes. *)
Inductive analysis_route :=
| ByImage
| ByText.

Definition analysis_handler (route : analysis_route) : Request → M Response :=
  match route with
  | ByImage => post_analyze_food_image
  | ByText => post_analyze_food_text
  end.

Definition analysis_path (route : analysis_route) : string :=
  match route with
  | ByImage => "/api/analyze-food-image"
  | ByText => "/api/analyze-food-text"
  end.

Definition analysis_field (route : analysis_route) : string :=
  match route with
  | ByImage => "base64Image"
  | ByText => "description"
  end.

Definition analysis_request (route : analysis_route) (input : value)
  : ai_request :=
  match route with
  | ByImage => mkRequest DEFAULT_MODEL_STR 1500 FoodImagePrompt input
  | ByText => mkRequest DEFAULT_MODEL_STR 1500 FoodTextPrompt input
  end.

(** The fixed message of the route's 500 response. *)
Definition analysis_message (route : analysis_route) : string :=
  match route with
  | ByImage => "Failed to analyze food image"
  | ByText => "Failed to analyze food description"
  end.

(** What the collaborator and the route write on the console. *)
Definition collaborator_label (route : analysis_route) : string :=
  match route with
  | ByImage => "Food analysis error:"
  | ByText => "Food text analysis error:"
  end.



(** The enumerated appointment statuses. *)
Definition appointment_statuses : list string :=
  ["scheduled"; "completed"; "cancelled"; "rescheduled"].

(** The columns PATCH /api/appointments/:id/status assigns. *)
Definition status_column : column :=
  dsl.with_default (DefaultValue (SText "scheduled"))
                   (appointmentStatusEnum "status").

Definition updatedAt_column : column := dsl.defaultNow (dsl.timestamp "updatedAt").

(** The SET clause of the status update, on a row. *)
Definition set_status (s : string) (env : Env) (r : row) : row :=
  assign [("status", SText s); ("updatedAt", STimestamp (js_now env))] r.

(** *** Sample data *)

Module Sample.

Definition rate_limit : Error := mkError "RateLimitError" "429 rate limit exceeded".

(** An environment whose provider is rate limited. *)
Definition env : Env :=
  mkEnv 1700000000000 1700000000001 "7c9e6679-7425-40de-944b-e07fc1f90ae7"
        (λ _, None)
        (λ _, Throw (mkError "SyntaxError" "Unexpected token"))
        (λ _, Throw rate_limit).

Definition user : row := {[ "id" := SText MOCK_USER_ID ]}.

Definition entry (id t : Z) : row :=
  <["id" := SInt id]> (<["userId" := SText MOCK_USER_ID]>
    {[ "timestamp" := STimestamp t ]}).

(** A store with the mock user, three food entries and nothing else. *)
Definition db : DB :=
  mkDB (<["users" := [user]]>
          {[ "food_entries" := [entry 1 10; entry 2 30; entry 3 20] ]})
       {[ "food_entries" := 3 ]}.

Definition world : World := mkWorld db [] [].

Definition request (b : object) : Request := mkReq "" b ∅ ∅.

(** Two profile payloads for the mock user. *)
Definition profile_30 : object :=
  <["userId" := VStr MOCK_USER_ID]> {[ "age" := VNum (Num 30) ]}.
Definition profile_31 : object :=
  <["userId" := VStr MOCK_USER_ID]> {[ "age" := VNum (Num 31) ]}.

(** Two user payloads with the same email, and a later environment. *)
Definition ann : object :=
  <["email" := VStr "ann@example.org"]> {[ "firstName" := VStr "Ann" ]}.
Definition anne : object :=
  <["email" := VStr "ann@example.org"]> {[ "firstName" := VStr "Anne" ]}.
Definition later : Env :=
  mkEnv 1700000060000 1700000060001 "0f8fad5b-d9cb-469f-a165-70867728950e"
        (λ _, None)
        (λ _, Throw (mkError "SyntaxError" "Unexpected token"))
        (λ _, Throw rate_limit).

End Sample.

(** *** Vocabulary of the further properties *)

(** A response of the shapes the routes produce: a 200, or a 400 or 500
    that carries a message. *)
Definition well_formed (res : Response) : Prop :=
  status res = 200
  ∨ (status res = 400 ∨ status res = 500) ∧ ∃ m, sent res = Message m.

(** [r] belongs to [uid] by its owner column [key]. *)
Definition owned_via (key uid : string) (r : row) : Prop :=
  match cell r key with
  | SText u => u = lower uid
  | _ => False
  end.

#[export] Instance owned_via_dec key uid r : Decision (owned_via key uid r).
Proof. unfold owned_via. destruct (cell r key); apply _. Defined.

(** The listings that have no cap. *)
Inductive listing :=
| Appointments
| MedicalDocuments
| AIConversations.

Definition listing_get (l : listing) : string → M (list row) :=
  match l with
  | Appointments => storage.getAppointments
  | MedicalDocuments => storage.getMedicalDocuments
  | AIConversations => storage.getAIConversations
  end.

Definition listing_route (l : listing) : Request → M Response :=
  match l with
  | Appointments => get_appointments
  | MedicalDocuments => get_medical_documents
  | AIConversations => get_ai_conversations
  end.

Definition listing_table (l : listing) : table :=
  match l with
  | Appointments => appointments
  | MedicalDocuments => medicalDocuments
  | AIConversations => aiConversations
  end.

Definition listing_owner (l : listing) : string :=
  match l with
  | Appointments => "patientId"
  | _ => "userId"
  end.

Definition listing_order (l : listing) : string :=
  match l with
  | Appointments => "appointmentDate"
  | MedicalDocuments => "uploadDate"
  | AIConversations => "createdAt"
  end.

(** What a listing of the rows of [uid] in [t] is. *)
Definition listed (t : table) (key order uid : string) (db : DB)
    (rs : list row) : Prop :=
  rs ≡ₚ filter (owned_via key uid) (rows_of db (tbl_name t))
  ∧ StronglySorted (desc_order order) rs.

(** What the check of the route looks for is there, but falsy. *)
Definition guard_falsy (route : guarded_route) (req : Request) : Prop :=
  match route with
  | FoodEntriesRange =>
      truthy_str (query req !! "startDate") = false
      ∨ truthy_str (query req !! "endDate") = false
  | AnalyzeFoodImage => truthy_opt (body req !! "base64Image") = false
  | AnalyzeFoodText => truthy_opt (body req !! "description") = false
  end.

(** A number [parseInt] reads as JavaScript does: a safe integer. *)
Definition safe_integer (n : Z) : Prop := - 2 ^ 53 < n < 2 ^ 53.

(** An input the analysis function hands on as it is.  The description is
    spliced into the text of the prompt, which fails before any call for
    an object that has no string form; a string always has one.  The image
    is passed along untouched. *)
Definition plain_input (route : analysis_route) (input : value) : Prop :=
  match route, input with
  | ByImage, _ => True
  | ByText, VStr _ => True
  | ByText, _ => False
  end.

(** What the provider's answer to [req] parses to, or the failure on the
    way. *)
Definition parsed_reply (env : Env) (req : ai_request) : outcome value :=
  response ← messages_create env req;
  t ← first_text response;
  JSON_parse env t.

(** A route parameter that does not read as an id of the 32-bit column. *)
Definition not_an_id (x : number) : Prop :=
  match x with
  | NaN => True
  | Num n => int4 n = false
  end.

(** The SET clause of a status update that names no status. *)
Definition touch (env : Env) (r : row) : row :=
  assign [("updatedAt", STimestamp (js_now env))] r.

(** The properties the insert schema of a validated route leaves out: the
    server assigns them. *)
Definition server_assigned (route : create_route) : list string :=
  match route with
  | CreateProfile | CreateAppointment => ["id"; "createdAt"; "updatedAt"]
  | CreateFoodEntry => ["id"; "timestamp"]
  | CreateMedicalDocument => ["id"; "uploadDate"]
  | CreateHRVData | CreateAIConversation => []
  end.

(** The storage method that creates what a listing lists. *)
Definition listing_create (l : listing) : object → M row :=
  match l with
  | Appointments => storage.createAppointment
  | MedicalDocuments => storage.createMedicalDocument
  | AIConversations => storage.createAIConversation
  end.

(** No row of [users] has the id [uid]. *)
Definition no_such_user (uid : string) (db : DB) : Prop :=
  Forall (λ u, sql_eq (cell u "id") (SText uid) = false) (rows_of db "users").

(** A property that does not hold a valid [Date]; no property of a JSON
    body does. *)
Definition not_a_Date (o : option value) : Prop :=
  match o with
  | Some (VDate (Some _)) => False
  | _ => True
  end.

(** *** More sample data *)

Module Fixture.

(** An environment whose provider answers with one text segment, which
    parses to an empty object, and whose date parser knows two days. *)
Definition answering : Env :=
  mkEnv 1700000000000 1700000000001 "7c9e6679-7425-40de-944b-e07fc1f90ae7"
        (λ s, if String.eqb s "2024-01-01" then Some 1704067200000
              else if String.eqb s "2024-01-31" then Some 1706659200000
              else None)
        (λ _, Return (VObj ∅))
        (λ _, Return (mkReply [mkBlock (Some "{}")])).

Definition answer : ai_response := mkReply [mkBlock (Some "{}")].

(** A freshly created database. *)
Definition fresh : World := mkWorld (mkDB ∅ ∅) [] [].

Definition document : object :=
  <["userId" := VStr MOCK_USER_ID]>
    (<["documentType" := VStr "lab"]>
       (<["title" := VStr "Blood panel"]>
          {[ "fileUrl" := VStr "/files/1.pdf" ]})).

Definition bob : object := {[ "firstName" := VStr "Bob" ]}.

(** A store with the mock user and one appointment, numbered 7. *)
Definition booked : World :=
  mkWorld
    (mkDB (<["users" := [Sample.user]]>
             {[ "appointments" :=
                  [ <["id" := SInt 7]>
                      (<["patientId" := SText MOCK_USER_ID]>
                         {[ "status" := SText "scheduled" ]}) ] ]})
          {[ "appointments" := 7 ]})
    [] [].

Definition patch (b : object) (id : string) : Request :=
  mkReq "" b ∅ {[ "id" := id ]}.

Definition range (startDate endDate : string) : Request :=
  mkReq "" ∅ (<["startDate" := startDate]> {[ "endDate" := endDate ]}) ∅.

(** A no-break space, U+00A0, and a word of eleven characters in twenty-two
    bytes. *)
Definition nbsp : string :=
  String (ascii_of_nat 194) (String (ascii_of_nat 160) EmptyString).

Definition eleven : string := "ééééééééééé".

(** Whether a computation returned, and whether it answered with a row. *)
Definition returns {A} (o : outcome A) : bool :=
  match o with
  | Return _ => true
  | Throw _ => false
  end.

Definition answers_row (o : outcome Response) : bool :=
  match o with
  | Return (mkRes s (Row _)) => s =? 200
  | _ => false
  end.

End Fixture.

(* ===================================================================== *)
(** ** Lemmas on the store                                                 *)
(* ===================================================================== *)

Section order.

#[local] Instance null_high_total : Total null_high.
Proof. intros [x|] [y|]; simpl; try tauto. lia. Qed.

#[local] Instance null_high_trans : Transitive null_high.
Proof. intros [x|] [y|] [z|]; simpl; try tauto. lia. Qed.

#[export] Instance desc_order_total k : Total (desc_order k).
Proof. intros r1 r2. unfold desc_order. destruct (total null_high
  (order_key (cell r2 k)) (order_key (cell r1 k))); tauto. Qed.

#[export] Instance desc_order_trans k : Transitive (desc_order k).
Proof. intros r1 r2 r3 H12 H23. unfold desc_order in *.
  by etrans. Qed.

Lemma orderBy_desc_perm k rs : orderBy_desc k rs ≡ₚ rs.
Proof. apply merge_sort_Permutation. Qed.

Lemma orderBy_desc_sorted k rs :
  StronglySorted (desc_order k) (orderBy_desc k rs).
Proof. apply StronglySorted_merge_sort; apply _. Qed.

End order.

(** *** Running the monad *)

Lemma run_bind {A B} (m : M A) (f : A → M B) env w :
  (m ≫= f) env w
  = match m env w with
    | (Return a, w') => f a env w'
    | (Throw e, w') => (Throw e, w')
    end.
Proof. reflexivity. Qed.

Lemma run_try_catch {A} (m : M A) (h : Error → M A) env w :
  try_catch m h env w
  = match m env w with
    | (Return a, w') => (Return a, w')
    | (Throw e, w') => h e env w'
    end.
Proof. reflexivity. Qed.

Lemma run_lift {A} (o : outcome A) env w : lift o env w = (o, w).
Proof. reflexivity. Qed.

Lemma run_requireAuth next req env w :
  requireAuth next req env w
  = next (mkReq MOCK_USER_ID (body req) (query req) (params req)) env w.
Proof. reflexivity. Qed.

Ltac run :=
  repeat first
    [ rewrite run_requireAuth
    | rewrite run_try_catch
    | rewrite run_bind
    | rewrite run_lift ];
  unfold with_owner;
  cbn [userId body query params].

Lemma mock_is_uuid : is_uuid MOCK_USER_ID = true.
Proof. reflexivity. Qed.

Lemma mock_lower : lower MOCK_USER_ID = MOCK_USER_ID.
Proof. reflexivity. Qed.

Lemma StronglySorted_refine {A} (R R' : relation A) (P : A → Prop) l :
  (∀ x y, P x → P y → R x y → R' x y) →
  Forall P l → StronglySorted R l → StronglySorted R' l.
Proof.
  intros HR HP HS. induction HS as [|x l HS IH Hx]; [constructor|].
  apply Forall_cons in HP as [Px Pl]. constructor; [by apply IH|].
  rewrite Forall_forall in Hx, Pl |- *. intros y Hy.
  apply HR; auto.
Qed.

Lemma filter_bool_Prop {A} (f : A → bool) (P : A → Prop)
    `{∀ x, Decision (P x)} (l : list A) :
  (∀ x, f x = true ↔ P x) → List.filter f l = filter P l.
Proof.
  intros Hf. induction l as [|x l IH]; [done|]. simpl.
  rewrite filter_cons. destruct (f x) eqn:Hx.
  - rewrite decide_True by (by apply Hf). by rewrite IH.
  - rewrite decide_False; [done|]. intros HP. apply Hf in HP. congruence.
Qed.

Lemma string_compare_refl u : String.compare u u = Eq.
Proof.
  pose proof (String.compare_antisym u u) as H.
  destruct (String.compare u u); simpl in H; congruence.
Qed.

Lemma sql_eq_text c u : sql_eq c (SText u) = true ↔
  match c with SText v => v = u | _ => False end.
Proof.
  unfold sql_eq. destruct c; simpl; try (split; [done|tauto]).
  destruct (String.compare s u) eqn:E.
  - apply String.compare_eq_iff in E. tauto.
  - split; [done|]. intros ->. rewrite string_compare_refl in E. done.
  - split; [done|]. intros ->. rewrite string_compare_refl in E. done.
Qed.

Lemma sql_eq_int c n : sql_eq c (SInt n) = true ↔ c = SInt n.
Proof.
  unfold sql_eq. destruct c; simpl; try (split; [done|congruence]).
  destruct (Z.compare_spec n0 n); split; try done; try congruence.
  - intros [= ?]. lia.
  - intros [= ?]. lia.
Qed.

Lemma sql_range_timestamp c s e :
  sql_ge c (STimestamp s) && sql_le c (STimestamp e) = true ↔
  match c with STimestamp t => s ≤ t ≤ e | _ => False end.
Proof.
  unfold sql_ge, sql_le. destruct c; simpl; try (split; [done|tauto]).
  destruct (Z.compare_spec t s), (Z.compare_spec t e); simpl;
    split; try done; try lia.
Qed.

(* ===================================================================== *)
(** ** Date-range query                                                    *)
(* ===================================================================== *)

#[local] Arguments is_uuid : simpl never.
#[local] Arguments lower : simpl never.

Lemma encode_for_uuid c s :
  col_type c = TUuid → is_uuid s = true →
  encode_for c (VStr s) = Return (SText (lower s)).
Proof. intros Hc Hs. unfold encode_for, encode. by rewrite Hc, Hs. Qed.

Lemma bind_food_range uid s e :
  is_uuid uid = true →
  bind foodEntries
    (CAnd [CEq "userId" (VStr uid);
           CGte "timestamp" (VDate (Some s));
           CLte "timestamp" (VDate (Some e))])
  = Return (BAnd [BEq "userId" (SText (lower uid));
                  BGte "timestamp" (STimestamp s);
                  BLte "timestamp" (STimestamp e)]).
Proof. intros H. cbn. by rewrite encode_for_uuid. Qed.

Lemma holds_food_range uid s e r :
  holds (BAnd [BEq "userId" (SText (lower uid));
               BGte "timestamp" (STimestamp s);
               BLte "timestamp" (STimestamp e)]) r = true
  ↔ owned_by uid r ∧ stamped_within (Some s) (Some e) r.
Proof.
  simpl. rewrite andb_true_r, andb_true_iff, sql_eq_text,
    sql_range_timestamp.
  unfold owned_by, stamped_within. done.
Qed.

(** C3.  For every user id and dates [startDate <= endDate] that the
    server takes as timestamps (years 0001 to 9999),
    [getFoodEntriesByDateRange] returns exactly the stored food entries of
    that user whose timestamp lies in the closed interval, both bounds
    included (a permutation of them, the store left as it was), ordered by
    timestamp descending. *)
Theorem getFoodEntriesByDateRange_exact (env : Env) (w : World)
    (uid : string) (startDate endDate : Date) :
  is_uuid uid = true →
  storable startDate → storable endDate →
  Date_le startDate endDate →
  ∃ rs,
    storage.getFoodEntriesByDateRange uid startDate endDate env w
    = (Return rs,
       mkWorld (store w) (calls w ++ [Statement "food_entries"]) (console w))
    ∧ rs ≡ₚ filter (λ r, owned_by uid r ∧ stamped_within startDate endDate r)
               (rows_of (store w) "food_entries")
    ∧ StronglySorted newer_or_same rs.
Proof.
  intros Huid _ _ Hle.
  destruct startDate as [s|], endDate as [e|]; try done.
  unfold storage.getFoodEntriesByDateRange, storage.run_select, statement,
    select.
  unfold dsl.and, dsl.eq, dsl.gte, dsl.lte, dsl.desc.
  rewrite bind_food_range by done. simpl.
  eexists. split; [reflexivity|].
  rewrite (filter_bool_Prop _
             (λ r, owned_by uid r ∧ stamped_within (Some s) (Some e) r))
    by apply holds_food_range.
  split; [apply orderBy_desc_perm|].
  eapply (StronglySorted_refine (desc_order "timestamp") _
            (stamped_within (Some s) (Some e))).
  - intros r1 r2 H1 H2 H12. unfold stamped_within, desc_order in *.
    destruct (cell r1 "timestamp") as [| | | |t1| |] eqn:E1; try done.
    destruct (cell r2 "timestamp") as [| | | |t2| |] eqn:E2; try done.
    exists t1, t2. simpl in H12. done.
  - rewrite orderBy_desc_perm. apply Forall_forall.
    intros r Hr. apply list_elem_of_filter in Hr. tauto.
  - apply orderBy_desc_sorted.
Qed.

(* ===================================================================== *)
(** ** Capped listings                                                     *)
(* ===================================================================== *)

Lemma select_owned db t uid c order limit :
  find_column t "userId" = Some c → col_type c = TUuid →
  is_uuid uid = true →
  select db t (CEq "userId" (VStr uid)) order limit
  = let rows := filter (owned_by uid) (rows_of db (tbl_name t)) in
    let rows := match order with
                | Some k => orderBy_desc k rows
                | None => rows
                end in
    match limit with
    | Some n => apply_limit n rows
    | None => Return rows
    end.
Proof.
  intros Hc Hty Huid. unfold select. simpl. unfold bind_param.
  rewrite Hc, encode_for_uuid by done. simpl.
  rewrite (filter_bool_Prop _ (owned_by uid)); [done|].
  intros r. simpl. apply sql_eq_text.
Qed.

Lemma apply_limit_take {A} (n : Z) (rs : list A) :
  0 ≤ n < 2 ^ 63 → apply_limit (Num n) rs = Return (take (Z.to_nat n) rs).
Proof.
  intros [H0 H1]. unfold apply_limit.
  destruct (Z.ltb_spec n 0); [lia|].
  destruct (Z.ltb_spec n (2 ^ 63)); [done|lia].
Qed.

Lemma capped_listing k n owned :
  newest_first_capped k n owned (take (Z.to_nat n) (orderBy_desc k owned)).
Proof.
  exists (drop (Z.to_nat n) (orderBy_desc k owned)).
  rewrite take_drop. split; [apply orderBy_desc_perm|].
  split; [apply orderBy_desc_sorted|].
  by rewrite length_take, orderBy_desc_perm.
Qed.

Lemma asks_for_limit d limit n {A} (rs : list A) :
  0 ≤ d < 2 ^ 63 → asks_for d limit n →
  apply_limit (default (Num d) limit) rs = Return (take (Z.to_nat n) rs).
Proof.
  intros Hd. destruct limit as [l|]; simpl.
  - intros [-> Hn]. by apply apply_limit_take.
  - intros ->. by apply apply_limit_take.
Qed.

Lemma listings_capped_hrv env w uid limit n :
  is_uuid uid = true →
  asks_for 100 limit n →
  ∃ rs,
    storage.getHRVData uid limit env w
    = (Return rs,
       mkWorld (store w) (calls w ++ [Statement "hrv_data"]) (console w))
    ∧ newest_first_capped "timestamp" n
        (filter (owned_by uid) (rows_of (store w) "hrv_data")) rs.
Proof.
  intros Huid Hn.
  unfold storage.getHRVData, storage.run_select, statement, dsl.eq, dsl.desc.
  rewrite (select_owned _ hrvData uid _ _ _ eq_refl eq_refl Huid).
  cbn zeta. rewrite (asks_for_limit 100 limit n) by (done || lia).
  eexists. split; [reflexivity|apply capped_listing].
Qed.

(** C7.  For every user id, [getFoodEntries] returns that user's food
    entries in ORDER BY timestamp DESC order (newest first; PostgreSQL puts
    rows without a timestamp, if there are any, before the others), cut
    after the given limit, 50 when none is given; [getHRVData] does the same
    for HRV records with 100 as the default, and with limit 5 it returns at
    most 5 records. *)
Theorem listings_newest_first_capped (env : Env) (w : World) (uid : string)
    (limit : option number) (n_food n_hrv : Z) :
  is_uuid uid = true →
  asks_for 50 limit n_food →
  asks_for 100 limit n_hrv →
  (∃ rs,
     storage.getFoodEntries uid limit env w
     = (Return rs,
        mkWorld (store w) (calls w ++ [Statement "food_entries"]) (console w))
     ∧ newest_first_capped "timestamp" n_food
         (filter (owned_by uid) (rows_of (store w) "food_entries")) rs)
  ∧ (∃ rs,
       storage.getHRVData uid limit env w
       = (Return rs,
          mkWorld (store w) (calls w ++ [Statement "hrv_data"]) (console w))
       ∧ newest_first_capped "timestamp" n_hrv
           (filter (owned_by uid) (rows_of (store w) "hrv_data")) rs)
  ∧ (∃ rs,
       storage.getHRVData uid (Some (Num 5)) env w
       = (Return rs,
          mkWorld (store w) (calls w ++ [Statement "hrv_data"]) (console w))
       ∧ newest_first_capped "timestamp" 5
           (filter (owned_by uid) (rows_of (store w) "hrv_data")) rs
       ∧ (length rs ≤ 5)%nat).
Proof.
  intros Huid Hfood Hhrv.
  unfold storage.getFoodEntries, storage.getHRVData, storage.run_select,
    statement, dsl.eq, dsl.desc.
  rewrite !(select_owned _ foodEntries uid _ _ _ eq_refl eq_refl Huid).
  rewrite !(select_owned _ hrvData uid _ _ _ eq_refl eq_refl Huid).
  simpl.
  rewrite (asks_for_limit 50 limit n_food) by (done || lia).
  rewrite (asks_for_limit 100 limit n_hrv) by (done || lia).
  repeat split.
  - eexists. split; [reflexivity|apply capped_listing].
  - eexists. split; [reflexivity|apply capped_listing].
  - eexists. split; [reflexivity|]. split; [apply capped_listing|].
    rewrite length_take. lia.
Qed.

(* ===================================================================== *)
(** ** Point lookup of a profile                                           *)
(* ===================================================================== *)

Lemma filter_none {A} (P : A → Prop) `{∀ x, Decision (P x)} (l : list A) :
  Forall (λ x, ¬ P x) l → filter P l = [].
Proof.
  induction 1 as [|x l Hx _ IH]; [done|].
  by rewrite filter_cons, decide_False.
Qed.

Lemma getUserProfile_absent env w uid :
  is_uuid uid = true →
  Forall (λ r, ¬ owned_by uid r) (rows_of (store w) "user_profiles") →
  storage.getUserProfile uid env w
  = (Return None,
     mkWorld (store w) (calls w ++ [Statement "user_profiles"]) (console w)).
Proof.
  intros Huid Hnone.
  unfold storage.getUserProfile, storage.run_select, statement, dsl.eq.
  unfold mbind, M_bind.
  rewrite (select_owned _ userProfiles uid _ _ _ eq_refl eq_refl Huid).
  simpl. by rewrite filter_none.
Qed.

(** C10.  For every user id with no stored profile row, [getUserProfile]
    returns the absent value without raising, and GET /api/profile (which
    looks up the fixed authenticated user) then responds 200 with that
    absent value passed to [res.json] as it is. *)
Theorem missing_profile_is_absent (env : Env) (w : World) (uid : string)
    (req : Request) :
  is_uuid uid = true →
  Forall (λ r, ¬ owned_by uid r) (rows_of (store w) "user_profiles") →
  Forall (λ r, ¬ owned_by MOCK_USER_ID r) (rows_of (store w) "user_profiles") →
  storage.getUserProfile uid env w
  = (Return None,
     mkWorld (store w) (calls w ++ [Statement "user_profiles"]) (console w))
  ∧ get_profile req env w
    = (Return (mkRes 200 Undefined),
       mkWorld (store w) (calls w ++ [Statement "user_profiles"]) (console w)).
Proof.
  intros Huid Hnone Hmock. split; [by apply getUserProfile_absent|].
  unfold get_profile. run.
  by rewrite getUserProfile_absent by (done || apply mock_is_uuid).
Qed.

(* ===================================================================== *)
(** ** Precondition checks and schema failures                             *)
(* ===================================================================== *)

(** C8.  When what an explicit precondition check looks for is missing
    (either date bound of GET /api/food-entries/range, [base64Image] of
    POST /api/analyze-food-image, [description] of
    POST /api/analyze-food-text), the response is 400 with the message of
    that check, and the world is left as it was: no statement reached the
    database and no request reached the provider. *)
Theorem precondition_checks (route : guarded_route) (req : Request)
    (env : Env) (w : World) :
  precondition_fails route req →
  guarded_handler route req env w
  = (Return (mkRes 400 (Message (guard_message route))), w).
Proof.
  destruct route; simpl; intros H.
  - unfold get_food_entries_range, requireAuth, try_catch. simpl.
    destruct H as [-> | ->]; simpl; [done|].
    by rewrite orb_true_r.
  - unfold post_analyze_food_image, requireAuth, try_catch. simpl.
    by rewrite H.
  - unfold post_analyze_food_text, requireAuth, try_catch. simpl.
    by rewrite H.
Qed.

(** C6.  On a schema-validated POST route, a body that fails the declared
    schema (once merged with the authenticated user id, as the handler
    parses it) gets a 500 with the generic message of the route, not a 400:
    the thrown validation error reaches the generic catch clause, which
    logs it; nothing is sent to the database. *)
Theorem schema_failure_is_500 (route : create_route) (sch : schema)
    (req : Request) (env : Env) (w : World) (e : Error) :
  create_schema route = Some sch →
  parse sch (<[owner_key route := VStr MOCK_USER_ID]> (body req)) = Throw e →
  create_handler route req env w
  = (Return (mkRes 500 (Message (failure_message route))),
     mkWorld (store w) (calls w)
             (console w ++ [(failure_label route, e)])).
Proof.
  destruct route;
    cbn [create_schema owner_key create_handler failure_message failure_label];
    intros [= <-] Hparse.
  - unfold post_profile. run. by rewrite Hparse.
  - unfold post_food_entries. run. by rewrite Hparse.
  - unfold post_appointments. run. by rewrite Hparse.
  - unfold post_medical_documents. run. by rewrite Hparse.
Qed.

(* ===================================================================== *)
(** ** Failures of the analysis provider                                   *)
(* ===================================================================== *)







(* ===================================================================== *)
(** ** Status update of an appointment                                     *)
(* ===================================================================== *)

Lemma assignments_status now (s : value) :
  assignments (tbl_columns appointments)
    (<["updatedAt" := VDate (Some now)]> {["status" := s]})
  = (st ← encode_for status_column s;
     Return [("status", st); ("updatedAt", STimestamp now)]).
Proof. vm_compute. reflexivity. Qed.

Lemma assigned_status now (s : value) :
  assigned (tbl_columns appointments)
    (<["updatedAt" := VDate (Some now)]> {["status" := s]})
  = [status_column; updatedAt_column].
Proof. vm_compute. reflexivity. Qed.

Lemma encode_status s :
  encode_for status_column (VStr s)
  = if bool_decide (s ∈ appointment_statuses) then Return (SText s)
    else Throw (refused "status").
Proof.
  unfold encode_for, status_column, appointment_statuses. simpl.
  by case_bool_decide.
Qed.

Lemma bind_appointment_id n :
  int4 n = true →
  bind appointments (CEq "id" (VNum (Num n))) = Return (BEq "id" (SInt n)).
Proof.
  intros H. cbn. unfold encode_for, encode. cbn. by rewrite H.
Qed.

Lemma update_rows_unchecked check upd p done todo :
  (∀ others r, check others r = None) →
  update_rows check upd p done todo
  = Return (done ++ ((λ r, if p r then upd r else r) <$> todo)).
Proof.
  intros Hcheck. revert done.
  induction todo as [|r todo IH]; intros done; simpl.
  - by rewrite app_nil_r.
  - destruct (p r).
    + rewrite Hcheck. simpl. rewrite IH. by rewrite <- app_assoc.
    + rewrite IH. by rewrite <- app_assoc.
Qed.

Lemma status_columns_unconstrained db others r :
  violation db others [status_column; updatedAt_column] r = None.
Proof. reflexivity. Qed.

(** C9, as the code has it.  For every appointment id that reads as an
    integer of the column's 32-bit range, whether or not it matches a stored
    appointment, PATCH /api/appointments/:id/status responds 200 with
    "Appointment status updated" when the status is one of the enumerated
    values: the rows with that id, possibly none, get the status and a fresh
    [updatedAt], and an update of zero rows is not detected.  The route
    does not validate the status, but a status string outside the
    enumerated set is refused by the enum column, and the response is then
    500 with "Failed to update appointment status". *)
Theorem patch_status_outcome (req : Request) (env : Env) (w : World)
    (id_text : string) (n : Z) (s : string) :
  params req !! "id" = Some id_text →
  parseInt id_text = Num n →
  int4 n = true →
  body req !! "status" = Some (VStr s) →
  patch_appointment_status req env w
  = if bool_decide (s ∈ appointment_statuses) then
      (Return (mkRes 200 (Message "Appointment status updated")),
       mkWorld
         (set_rows (store w) "appointments"
            ((λ r, if sql_eq (cell r "id") (SInt n)
                   then set_status s env r else r)
               <$> rows_of (store w) "appointments"))
         (calls w ++ [Statement "appointments"]) (console w))
    else
      (Return (mkRes 500 (Message "Failed to update appointment status")),
       mkWorld (store w) (calls w ++ [Statement "appointments"])
               (console w ++ [("Error updating appointment status:",
                               refused "status")])).
Proof.
  intros Hid Hparse Hrange Hstatus.
  unfold patch_appointment_status. run.
  rewrite Hid, Hstatus. cbn [from_option id]. rewrite Hparse.
  unfold storage.updateAppointmentStatus, statement, update, dsl.eq.
  unfold storage.new_Date.
  rewrite assignments_status, assigned_status, encode_status.
  case_bool_decide as Hs; cbn [mbind outcome_bind].
  - rewrite bind_appointment_id by done.
    rewrite update_rows_unchecked by apply status_columns_unconstrained.
    reflexivity.
  - reflexivity.
Qed.

(** An update that matches no row leaves every row as it was. *)
Lemma status_update_without_match n s env (rs : list row) :
  Forall (λ r, sql_eq (cell r "id") (SInt n) = false) rs →
  (λ r, if sql_eq (cell r "id") (SInt n) then set_status s env r else r)
    <$> rs = rs.
Proof.
  induction 1 as [|r rs Hr _ IH]; [done|].
  rewrite fmap_cons, Hr. by f_equal.
Qed.

(** C9 as stated fails: a status outside the enumerated set gets a 500. *)
Lemma patch_status_outside_enum :
  fst (patch_appointment_status
         (mkReq "" {[ "status" := VStr "archived" ]} ∅ {[ "id" := "7" ]})
         Sample.env Sample.world)
  = Return (mkRes 500 (Message "Failed to update appointment status")).
Proof. vm_compute. reflexivity. Qed.

(* ===================================================================== *)
(** ** The owner of a created row                                          *)
(* ===================================================================== *)

Lemma parse_field_lookup f input o :
  parse_field f input = Return o → o = input !! zf_key f.
Proof.
  unfold parse_field. destruct (input !! zf_key f) as [v|];
    case_match; congruence.
Qed.

(** A parsed object has the fields of the schema, as they were given. *)
Lemma parse_lookup s input out k :
  parse s input = Return out →
  out !! k = if bool_decide (k ∈ zf_key <$> s) then input !! k else None.
Proof.
  revert out. induction s as [|f fs IH]; intros out; simpl.
  - intros [= <-]. by rewrite lookup_empty.
  - destruct (parse_field f input) as [o|] eqn:Hf; simpl; [|done].
    destruct (parse fs input) as [rest|] eqn:Hfs; simpl; [|done].
    intros [= <-]. apply parse_field_lookup in Hf as ->.
    specialize (IH rest eq_refl).
    destruct (decide (k = zf_key f)) as [->|Hne].
    + rewrite bool_decide_eq_true_2 by constructor.
      destruct (input !! zf_key f) as [v|] eqn:Hin.
      * by rewrite lookup_insert_eq.
      * rewrite IH. by case_bool_decide.
    + assert (out_eq : (match input !! zf_key f with
                        | Some v => <[zf_key f:=v]> rest
                        | None => rest
                        end) !! k = rest !! k).
      { destruct (input !! zf_key f); [by rewrite lookup_insert_ne|done]. }
      rewrite out_eq, IH.
      apply (f_equal (λ b : bool, if b then input !! k else None)).
      apply bool_decide_ext. rewrite elem_of_cons. tauto.
Qed.

(** The cell a proposed row holds for a column is the one proposed for
    it. *)
Lemma proposed_row_lookup now uuid next cols data r k c :
  proposed_row now uuid next cols data = Return r →
  List.find (λ c, String.eqb (col_key c) k) cols = Some c →
  ∃ v, proposed_cell now uuid next data c = Return v ∧ r !! k = Some v.
Proof.
  revert r. induction cols as [|c0 cs IH]; intros r; simpl; [done|].
  destruct (proposed_cell now uuid next data c0) as [v0|] eqn:H0;
    simpl; [|done].
  destruct (proposed_row now uuid next cs data) as [r'|] eqn:Hr';
    simpl; [|done].
  intros [= <-]. destruct (String.eqb_spec (col_key c0) k) as [<-|Hne].
  - intros [= <-]. exists v0. by rewrite lookup_insert_eq.
  - intros Hfind. destruct (IH r' eq_refl Hfind) as (v & Hv & Hlook).
    exists v. by rewrite lookup_insert_ne.
Qed.

Lemma rows_of_set_rows db name rs : rows_of (set_rows db name rs) name = rs.
Proof. unfold rows_of, set_rows. simpl. by rewrite lookup_insert_eq. Qed.

Lemma rows_of_draw t data db name :
  rows_of (draw t data db) name = rows_of db name.
Proof. unfold draw. by destruct (draws_sequence t data). Qed.

(** An INSERT adds the proposed row at the end of its table, or nothing. *)
Lemma insert_rows now uuid t data db :
  ∃ added,
    rows_of (insert now uuid t data db).1 (tbl_name t)
    = rows_of db (tbl_name t) ++ added
    ∧ Forall (λ r, proposed_row now uuid (nextval db (tbl_name t))
                     (tbl_columns t) data = Return r) added.
Proof.
  unfold insert.
  destruct (proposed_row _ _ _ _ _) as [r|e] eqn:Hr; simpl.
  - destruct (violation _ _ _ _); simpl.
    + exists []. by rewrite rows_of_draw, app_nil_r.
    + exists [r]. rewrite rows_of_set_rows. split; [done|].
      by apply Forall_singleton.
  - exists []. by rewrite app_nil_r.
Qed.

Lemma created_rows_owner t key c data env w :
  find_column t key = Some c → col_type c = TUuid →
  data !! key = Some (VStr MOCK_USER_ID) →
  ∃ added,
    rows_of (store (storage.run_insert t data env w).2) (tbl_name t)
    = rows_of (store w) (tbl_name t) ++ added
    ∧ Forall (λ r, cell r key = SText MOCK_USER_ID) added.
Proof.
  intros Hc Hty Hdata.
  unfold storage.run_insert, statement.
  destruct (insert_rows (pg_now env) (pg_uuid env) t data (store w))
    as (added & Hrows & Hadded).
  destruct (insert _ _ _ _ _) as [db' o]. simpl in *.
  exists added. split; [done|].
  eapply Forall_impl; [exact Hadded|]. intros r Hr. simpl in Hr.
  destruct (proposed_row_lookup _ _ _ _ _ _ _ _ Hr Hc) as (v & Hv & Hlook).
  apply List.find_some in Hc as [_ Hkey%String.eqb_eq].
  unfold proposed_cell in Hv. rewrite Hkey, Hdata in Hv.
  rewrite encode_for_uuid in Hv by (done || apply mock_is_uuid).
  injection Hv as <-. unfold cell. by rewrite Hlook, mock_lower.
Qed.

(** The upsert of a profile is refused whatever it is given: the conflict
    target [userId] of [user_profiles] carries no unique index. *)
Lemma upsertUserProfile_refused data env w :
  ∃ e,
    storage.upsertUserProfile data env w
    = (Throw e,
       mkWorld (store w) (calls w ++ [Statement "user_profiles"])
               (console w)).
Proof.
  unfold storage.upsertUserProfile, statement, insert_onConflictDoUpdate.
  destruct (proposed_row _ _ _ _ _) as [r|e]; [|by eexists].
  destruct (assignments _ _) as [asg|e]; [|by eexists].
  change (is_arbiter userProfiles "userId") with false.
  by eexists.
Qed.

Lemma catch_store (m : M Response) (h : Error → M Response) env w :
  (∀ e env' w', store (h e env' w').2 = store w') →
  store (try_catch m h env w).2 = store (m env w).2.
Proof.
  intros Hh. rewrite run_try_catch.
  destruct (m env w) as [[a|e] w']; simpl; [done|apply Hh].
Qed.


Lemma same_owner_merge key (b1 b2 : object) (v : value) :
  delete key b1 = delete key b2 → <[key := v]> b1 = <[key := v]> b2.
Proof.
  intros H. by rewrite <- (insert_delete_eq b1), <- (insert_delete_eq b2), H.
Qed.

Lemma parsed_owner sch key (b : object) data :
  parse sch (<[key := VStr MOCK_USER_ID]> b) = Return data →
  bool_decide (key ∈ zf_key <$> sch) = true →
  data !! key = Some (VStr MOCK_USER_ID).
Proof.
  intros Hparse Hkey.
  by rewrite (parse_lookup _ _ _ key Hparse), Hkey, lookup_insert_eq.
Qed.

(** The rows a handler leaves in [t] once it has parsed the merged body
    against [sch], inserted the result and answered. *)
Lemma validated_create_rows sch t key c (b : object) label message env w :
  find_column t key = Some c → col_type c = TUuid →
  bool_decide (key ∈ zf_key <$> sch) = true →
  ∃ added,
    rows_of
      (store
         (try_catch
            (data ← lift (parse sch (<[key := VStr MOCK_USER_ID]> b));
             r ← storage.run_insert t data;
             res_json (Row r))
            (λ error,
               console_error label error;;
               res_status_json 500 (Message message)) env w).2)
      (tbl_name t)
    = rows_of (store w) (tbl_name t) ++ added
    ∧ Forall (λ r, cell r key = SText MOCK_USER_ID) added.
Proof.
  intros Hc Hty Hkey. rewrite catch_store by done.
  rewrite run_bind, run_lift.
  destruct (parse sch _) as [data|e] eqn:Hparse.
  - destruct (created_rows_owner t key c data env w Hc Hty
                (parsed_owner _ _ _ _ Hparse Hkey)) as (added & Hrows & Hown).
    exists added. split; [|done]. rewrite run_bind.
    by destruct (storage.run_insert t data env w) as [[r|e] w'].
  - exists []. by rewrite app_nil_r.
Qed.

(** The same for a handler that inserts the merged body as it is. *)
Lemma raw_create_rows t key c (b : object) label message env w :
  find_column t key = Some c → col_type c = TUuid →
  ∃ added,
    rows_of
      (store
         (try_catch
            (r ← storage.run_insert t (<[key := VStr MOCK_USER_ID]> b);
             res_json (Row r))
            (λ error,
               console_error label error;;
               res_status_json 500 (Message message)) env w).2)
      (tbl_name t)
    = rows_of (store w) (tbl_name t) ++ added
    ∧ Forall (λ r, cell r key = SText MOCK_USER_ID) added.
Proof.
  intros Hc Hty. rewrite catch_store by done.
  destruct (created_rows_owner t key c (<[key := VStr MOCK_USER_ID]> b)
              env w Hc Hty (lookup_insert_eq _ _ _)) as (added & Hrows & Hown).
  exists added. split; [|done]. rewrite run_bind.
  by destruct (storage.run_insert t _ env w) as [[r|e] w'].
Qed.

(** C4.  On every POST create route the owner of the stored row is the
    fixed authenticated user, whatever owner the body names.  Two requests
    whose bodies differ at most in the owner field ([userId], or
    [patientId] for appointments) get the same response and leave the same
    world; and every row the request adds to the table of the route has the
    authenticated user id in its owner column. *)
Theorem owner_is_authenticated_user (route : create_route)
    (req1 req2 : Request) (env : Env) (w : World) :
  delete (owner_key route) (body req1) = delete (owner_key route) (body req2) →
  create_handler route req1 env w = create_handler route req2 env w
  ∧ ∃ added,
      rows_of (store (create_handler route req1 env w).2)
              (tbl_name (create_table route))
      = rows_of (store w) (tbl_name (create_table route)) ++ added
      ∧ Forall (λ r, cell r (owner_key route) = SText MOCK_USER_ID) added.
Proof.
  intros Hsame.
  apply (same_owner_merge _ _ _ (VStr MOCK_USER_ID)) in Hsame.
  split.
  - destruct route; cbn [create_handler owner_key] in *;
      unfold post_profile, post_food_entries, post_hrv_data,
        post_appointments, post_medical_documents, post_ai_conversations,
        requireAuth, with_owner;
      cbn [userId body]; by rewrite Hsame.
  - destruct route; cbn [create_handler owner_key create_table].
    + exists []. rewrite app_nil_r.
      unfold post_profile, requireAuth. rewrite catch_store by done.
      rewrite run_bind, run_lift.
      destruct (parse _ _) as [data|e]; [|done].
      rewrite run_bind.
      by destruct (upsertUserProfile_refused data env w) as [e ->].
    + by eapply validated_create_rows.
    + by eapply raw_create_rows.
    + by eapply validated_create_rows.
    + by eapply validated_create_rows.
    + by eapply raw_create_rows.
Qed.

(* ===================================================================== *)
(** ** Upserts                                                             *)
(* ===================================================================== *)

(** POST /api/profile answers 500 whatever the body, and stores nothing. *)
Lemma post_profile_refused req env w :
  fst (post_profile req env w)
  = Return (mkRes 500 (Message "Failed to update profile"))
  ∧ store (post_profile req env w).2 = store w.
Proof.
  unfold post_profile. run.
  destruct (parse _ _) as [data|e]; [|done].
  rewrite run_bind.
  by destruct (upsertUserProfile_refused data env w) as [e ->].
Qed.

(** C1 at a failing input.  On a store that holds the mock user and no
    profile, POST /api/profile with the valid payload [{ age: 30 }] answers
    500 "Failed to update profile", and the GET /api/profile that follows
    answers 200 with no profile at all: the posted values do not come
    back. *)
Theorem post_profile_then_get_loses_payload :
  fst (post_profile (Sample.request {[ "age" := VNum (Num 30) ]})
         Sample.env Sample.world)
  = Return (mkRes 500 (Message "Failed to update profile"))
  ∧ fst (get_profile (Sample.request ∅) Sample.env
           (post_profile (Sample.request {[ "age" := VNum (Num 30) ]})
              Sample.env Sample.world).2)
    = Return (mkRes 200 Undefined).
Proof. split; vm_compute; reflexivity. Qed.

(** C2 at a failing input.  Two calls of [upsertUserProfile] for the mock
    user are both refused by the database, and leave no profile row for
    that user where the claim expects exactly one. *)
Theorem upsertUserProfile_twice_stores_nothing :
  fst (storage.upsertUserProfile Sample.profile_30 Sample.env Sample.world)
  = Throw no_arbiter
  ∧ fst (storage.upsertUserProfile Sample.profile_31 Sample.later
           (storage.upsertUserProfile Sample.profile_30 Sample.env
              Sample.world).2)
    = Throw no_arbiter
  ∧ rows_of
      (store (storage.upsertUserProfile Sample.profile_31 Sample.later
                (storage.upsertUserProfile Sample.profile_30 Sample.env
                   Sample.world).2).2) "user_profiles"
    = [].
Proof. repeat split; vm_compute; reflexivity. Qed.

(** The sibling upsert of users, whose conflict target [email] is declared
    unique, does what the profile upsert misses: two calls with one email
    leave one row, with the fields of the second call and [updatedAt]
    refreshed. *)
Lemma upsertUser_twice_keeps_one_row :
  ∃ r,
    List.filter (λ r, sql_eq (cell r "email") (SText "ann@example.org"))
      (rows_of
         (store (storage.upsertUser Sample.anne Sample.later
                   (storage.upsertUser Sample.ann Sample.env
                      Sample.world).2).2) "users")
    = [r]
    ∧ cell r "firstName" = SText "Anne"
    ∧ cell r "updatedAt" = STimestamp (js_now Sample.later).
Proof. eexists. repeat split; vm_compute; reflexivity. Qed.

(* ===================================================================== *)
(** ** Upsert on a unique conflict target                                  *)
(* ===================================================================== *)

Lemma find_conflict_Some k r before rest b o a :
  find_conflict k r before rest = Some (b, o, a) →
  ∃ skipped, b = before ++ skipped ∧ rest = skipped ++ o :: a
             ∧ sql_eq (cell o k) (cell r k) = true.
Proof.
  revert before. induction rest as [|x rest IH]; intros before; simpl; [done|].
  destruct (sql_eq (cell x k) (cell r k)) eqn:Hx.
  - intros [= <- <- <-]. exists []. by rewrite app_nil_r.
  - intros H. destruct (IH _ H) as (skipped & -> & -> & Ho).
    exists (x :: skipped). by rewrite <- app_assoc.
Qed.

Lemma find_conflict_None k r before rest :
  find_conflict k r before rest = None →
  Forall (λ x, sql_eq (cell x k) (cell r k) = false) rest.
Proof.
  revert before. induction rest as [|x rest IH]; intros before; simpl;
    [constructor|].
  destruct (sql_eq (cell x k) (cell r k)) eqn:Hx; [done|].
  intros H. constructor; [done|by eapply IH].
Qed.

(** The SET clause assigns to a column the conversion of the property that
    names it. *)
Lemma assignments_lookup cols set asg k c val :
  assignments cols set = Return asg →
  List.find (λ c, String.eqb (col_key c) k) cols = Some c →
  set !! k = Some val →
  ∃ s, encode_for c val = Return s
       ∧ (list_to_map asg : row) !! k = Some s.
Proof.
  revert asg. induction cols as [|c0 cs IH]; intros asg; simpl; [done|].
  destruct (String.eqb_spec (col_key c0) k) as [<-|Hne].
  - intros Hasg [= <-] Hset. rewrite Hset in Hasg.
    destruct (encode_for c0 val) as [s0|] eqn:Hs0; simpl in Hasg; [|done].
    destruct (assignments cs set) as [rest|]; simpl in Hasg; [|done].
    injection Hasg as <-. exists s0. split; [done|].
    by rewrite list_to_map_cons, lookup_insert_eq.
  - intros Hasg Hfind Hset.
    destruct (set !! col_key c0) as [v0|]; [|by eapply IH].
    destruct (encode_for c0 v0) as [s0|]; simpl in Hasg; [|done].
    destruct (assignments cs set) as [rest|] eqn:Hrest; simpl in Hasg;
      [|done].
    injection Hasg as <-.
    destruct (IH rest eq_refl Hfind Hset) as (s & Hs & Hlook).
    exists s. split; [done|].
    by rewrite list_to_map_cons, lookup_insert_ne.
Qed.

Lemma violation_None_unique db others cols r c :
  violation db others cols r = None → In c cols →
  col_unique c = true →
  Forall (λ o, sql_eq (cell o (col_key c)) (cell r (col_key c)) = false)
         others.
Proof.
  unfold violation. intros Hv Hin Hu.
  destruct (null_check cols r); [done|].
  destruct (List.find _ cols) eqn:Hfind; [done|].
  pose proof (List.find_none _ _ Hfind c Hin) as Hc.
  unfold unique_violation in Hc. rewrite Hu in Hc. simpl in Hc.
  apply Forall_forall. intros o Ho.
  destruct (sql_eq (cell o (col_key c)) (cell r (col_key c))) eqn:E; [|done].
  assert (existsb (λ o, sql_eq (cell o (col_key c)) (cell r (col_key c)))
                  others = true) as Hex; [|congruence].
  apply existsb_exists. exists o. split; [|done]. by apply list_elem_of_In.
Qed.

Lemma filter_nothing {A} (f : A → bool) l :
  Forall (λ x, f x = false) l → List.filter f l = [].
Proof. induction 1 as [|x l Hx _ IH]; simpl; [done|]. by rewrite Hx. Qed.

Section upsert.

Context (now : Z) (uuid : string) (t : table) (target : string) (c : column).
Context (data set : object) (db db' : DB) (r : row).

Hypothesis target_column : find_column t target = Some c.
Hypothesis target_unique : col_unique c = true.
Hypothesis upserted :
  insert_onConflictDoUpdate now uuid t data target set db = (db', Return r).

(** The returned row holds, for each property given both in [data] and in
    [set], the conversion of that property. *)
Lemma upsert_field k ck val :
  find_column t k = Some ck →
  data !! k = Some val → set !! k = Some val →
  encode_for ck val = Return (cell r k).
Proof using upserted.
  intros Hk Hdata Hset. revert upserted. unfold insert_onConflictDoUpdate.
  destruct (proposed_row _ _ _ _ _) as [p|] eqn:Hp; [|done].
  destruct (assignments _ _) as [asg|] eqn:Hasg; [|done].
  destruct (negb _); [done|].
  destruct (null_check _ _); [done|].
  destruct (find_conflict _ _ _ _) as [[[b old] a]|].
  - destruct (violation _ _ _ _); [done|]. intros [= _ <-].
    destruct (assignments_lookup _ _ _ _ _ _ Hasg Hk Hset) as (s & -> & Hs).
    unfold cell, assign. by rewrite (lookup_union_Some_l _ _ _ _ Hs).
  - destruct (violation _ _ _ _); [done|]. intros [= _ <-].
    destruct (proposed_row_lookup _ _ _ _ _ _ _ _ Hp Hk) as (s & Hs & Hlook).
    apply List.find_some in Hk as [_ Hkey%String.eqb_eq].
    unfold proposed_cell in Hs. rewrite Hkey, Hdata in Hs.
    unfold cell. by rewrite Hs, Hlook.
Qed.

(** After the upsert the returned row is the only row of the table that
    holds the given value in the conflict target. *)
Lemma upsert_one_row val v :
  data !! target = Some val → set !! target = Some val →
  encode_for c val = Return v → sql_eq v v = true →
  List.filter (λ o, sql_eq (cell o target) v) (rows_of db' (tbl_name t))
  = [r].
Proof using All.
  intros Hdata Hset Hv Hvv.
  pose proof (upsert_field target c val target_column Hdata Hset) as Hr.
  rewrite Hv in Hr. injection Hr as Hr.
  pose proof target_column as Hin.
  apply List.find_some in Hin as [Hin Hkey%String.eqb_eq].
  revert upserted. unfold insert_onConflictDoUpdate.
  destruct (proposed_row _ _ _ _ _) as [p|] eqn:Hp; [|done].
  destruct (assignments _ _) as [asg|] eqn:Hasg; [|done].
  destruct (negb _); [done|].
  destruct (null_check _ _); [done|].
  destruct (find_conflict _ _ _ _) as [[[b old] a]|] eqn:Hconflict.
  - destruct (violation _ _ _ _) eqn:Hviol; [done|]. intros [= <- Hnew].
    rewrite rows_of_set_rows.
    assert (In c (assigned (tbl_columns t) set)) as Hassigned.
    { apply List.filter_In. split; [done|].
      apply bool_decide_eq_true. rewrite Hkey, Hset. by eexists. }
    pose proof (violation_None_unique _ _ _ _ _ Hviol Hassigned
                  target_unique) as Hothers.
    rewrite Hkey, Hnew, <- Hr in Hothers.
    apply Forall_app in Hothers as [Hb Ha].
    rewrite List.filter_app. simpl.
    rewrite (filter_nothing _ b), (filter_nothing _ a) by done.
    by rewrite Hnew, <- Hr, Hvv.
  - destruct (violation _ _ _ _) eqn:Hviol; [done|]. intros [= <- Hnew].
    rewrite rows_of_set_rows.
    pose proof (violation_None_unique _ _ _ _ _ Hviol Hin target_unique)
      as Hothers.
    rewrite Hkey, Hnew, <- Hr in Hothers.
    rewrite List.filter_app. simpl.
    rewrite (filter_nothing _ (rows_of db (tbl_name t))) by done.
    by rewrite Hnew, <- Hr, Hvv.
Qed.

End upsert.

Lemma select_by_email db email :
  select db users (CEq "email" (VStr email)) None None
  = Return (List.filter (λ o, sql_eq (cell o "email") (SText email))
                        (rows_of db "users")).
Proof. reflexivity. Qed.

(** X20.  The upsert of users, keyed on the unique [email]: after a call
    that returns [r], [r] is the one row of the table with that email, it is
    what [getUserByEmail] finds, and each property of [userData] reads back
    from it as it was converted for its column. *)
Lemma upsertUser_round_trip userData email env w r w' env' :
  userData !! "email" = Some (VStr email) →
  storage.upsertUser userData env w = (Return r, w') →
  List.filter (λ o, sql_eq (cell o "email") (SText email))
              (rows_of (store w') "users") = [r]
  ∧ fst (storage.getUserByEmail email env' w') = Return (Some r)
  ∧ ∀ k ck val,
      find_column users k = Some ck → userData !! k = Some val →
      k ≠ "updatedAt" →
      encode_for ck val = Return (cell r k).
Proof.
  intros Hemail. unfold storage.upsertUser, statement.
  destruct (insert_onConflictDoUpdate _ _ _ _ _ _ _) as [db' o] eqn:Hup.
  intros [= -> <-]. cbn [store].
  assert (List.filter (λ o, sql_eq (cell o "email") (SText email))
                      (rows_of db' "users") = [r]) as Hone.
  { eapply (upsert_one_row _ _ users "email" _ _ _ _ _ _ eq_refl eq_refl Hup
              (VStr email)).
    - done.
    - by rewrite lookup_insert_ne.
    - reflexivity.
    - unfold sql_eq. simpl. by rewrite string_compare_refl. }
  split; [done|]. split.
  - unfold storage.getUserByEmail, storage.run_select, statement, dsl.eq.
    rewrite run_bind. cbn [store]. by rewrite select_by_email, Hone.
  - intros k ck val Hk Hval Hne.
    eapply upsert_field; [exact Hup|done|done|].
    by rewrite lookup_insert_ne.
Qed.

(* ===================================================================== *)
(** ** The route table, and behaviour on sample inputs                     *)
(* ===================================================================== *)

(** Every POST route of the table is one of the six create routes or one
    of the two analysis routes. *)
Lemma post_routes_classified path h :
  ("POST", path, h) ∈ registerRoutes →
  (∃ route, path = create_path route ∧ h = create_handler route)
  ∨ (∃ route, path = analysis_path route ∧ h = analysis_handler route).
Proof.
  unfold registerRoutes. rewrite !elem_of_cons, elem_of_nil.
  intros H. repeat destruct H as [H|H]; try discriminate H; try done;
    injection H as -> ->;
    first [ left;
            first [ by exists CreateProfile | by exists CreateFoodEntry
                  | by exists CreateHRVData | by exists CreateAppointment
                  | by exists CreateMedicalDocument
                  | by exists CreateAIConversation ]
          | right; first [ by exists ByImage | by exists ByText ] ].
Qed.

Lemma create_routes_registered route :
  ("POST", create_path route, create_handler route) ∈ registerRoutes.
Proof.
  unfold registerRoutes. rewrite !elem_of_cons.
  destruct route; simpl; tauto.
Qed.

(** Under ORDER BY timestamp DESC, of two rows that carry a timestamp the
    earlier in the list is not the older. *)
Lemma desc_order_newest_first r1 r2 t1 t2 :
  desc_order "timestamp" r1 r2 →
  cell r1 "timestamp" = STimestamp t1 →
  cell r2 "timestamp" = STimestamp t2 →
  t2 ≤ t1.
Proof. unfold desc_order. intros H E1 E2. by rewrite E1, E2 in H. Qed.

(** GET /api/hrv-data?limit=5 answers 200 with at most five records. *)
Lemma get_hrv_data_limit_5 req env w :
  query req !! "limit" = Some "5" →
  ∃ rs,
    fst (get_hrv_data req env w) = Return (mkRes 200 (Rows rs))
    ∧ (length rs ≤ 5)%nat.
Proof.
  intros Hlimit. unfold get_hrv_data. run.
  unfold query_limit. cbn [query]. rewrite Hlimit.
  change (truthy_str (Some "5")) with true. cbv iota.
  change (parseInt (default "undefined" (Some "5"))) with (Num 5).
  destruct (listings_capped_hrv env w MOCK_USER_ID (Some (Num 5)) 5
              mock_is_uuid) as (rs & Hrun & Hcap); [by split|].
  rewrite Hrun. exists rs. split; [done|].
  destruct Hcap as (rest & _ & _ & ->). lia.
Qed.

Example parseInt_samples :
  parseInt "42" = Num 42 ∧ parseInt "  -7px" = Num (-7)
  ∧ parseInt "0x1F" = Num 31 ∧ parseInt "abc" = NaN ∧ parseInt "" = NaN.
Proof. repeat split; reflexivity. Qed.

(** The three sample entries carry the timestamps 10, 30 and 20. *)
Example range_sample :
  fst (storage.getFoodEntriesByDateRange MOCK_USER_ID (Some 15) (Some 30)
         Sample.env Sample.world)
  = Return [Sample.entry 2 30; Sample.entry 3 20].
Proof. vm_compute. reflexivity. Qed.

Example limit_sample :
  fst (storage.getFoodEntries MOCK_USER_ID (Some (Num 2))
         Sample.env Sample.world)
  = Return [Sample.entry 2 30; Sample.entry 3 20].
Proof. vm_compute. reflexivity. Qed.

(** A food entry posted with another user's id in its body is stored for
    the mock user. *)
Example create_sample :
  ∃ r w',
    post_food_entries
      (Sample.request
         (<["userId" := VStr "11111111-2222-3333-4444-555555555555"]>
            {[ "description" := VStr "apple" ]}))
      Sample.env Sample.world
    = (Return (mkRes 200 (Row r)), w')
    ∧ cell r "userId" = SText MOCK_USER_ID
    ∧ cell r "id" = SInt 4
    ∧ cell r "timestamp" = STimestamp (pg_now Sample.env)
    ∧ rows_of (store w') "food_entries"
      = rows_of Sample.db "food_entries" ++ [r].
Proof. do 2 eexists. repeat split; vm_compute; reflexivity. Qed.

(** An appointment cannot be created from a JSON body: the schema asks for
    a [Date] in [appointmentDate], which JSON does not have. *)
Example appointment_sample :
  fst (post_appointments
         (Sample.request
            (<["doctorId" := VStr MOCK_USER_ID]>
               {[ "appointmentDate" := VStr "2024-01-31T10:00:00.000Z" ]}))
         Sample.env Sample.world)
  = Return (mkRes 500 (Message "Failed to create appointment")).
Proof. vm_compute. reflexivity. Qed.

(* ===================================================================== *)
(** ** The theorems at sample inputs                                       *)
(* ===================================================================== *)

Lemma getFoodEntriesByDateRange_exact_witness :
  is_uuid MOCK_USER_ID = true
  ∧ storable (Some 10) ∧ storable (Some 20)
  ∧ Date_le (Some 10) (Some 20)
  ∧ ∃ rs,
      storage.getFoodEntriesByDateRange MOCK_USER_ID (Some 10) (Some 20)
        Sample.env Sample.world
      = (Return rs,
         mkWorld (store Sample.world)
                 (calls Sample.world ++ [Statement "food_entries"])
                 (console Sample.world))
      ∧ rs ≡ₚ filter (λ r, owned_by MOCK_USER_ID r
                           ∧ stamped_within (Some 10) (Some 20) r)
                 (rows_of (store Sample.world) "food_entries")
      ∧ StronglySorted newer_or_same rs.
Proof.
  split; [reflexivity|]. do 3 (split; [simpl; lia|]).
  apply getFoodEntriesByDateRange_exact; [reflexivity|simpl; lia..].
Defined.

Lemma listings_newest_first_capped_witness :
  is_uuid MOCK_USER_ID = true
  ∧ asks_for 50 None 50
  ∧ asks_for 100 None 100
  ∧ ∃ rs,
      storage.getFoodEntries MOCK_USER_ID None Sample.env Sample.world
      = (Return rs,
         mkWorld (store Sample.world)
                 (calls Sample.world ++ [Statement "food_entries"])
                 (console Sample.world))
      ∧ newest_first_capped "timestamp" 50
          (filter (owned_by MOCK_USER_ID)
                  (rows_of (store Sample.world) "food_entries")) rs.
Proof.
  split; [reflexivity|]. split; [reflexivity|]. split; [reflexivity|].
  apply (listings_newest_first_capped Sample.env Sample.world MOCK_USER_ID
           None 50 100); reflexivity.
Defined.

Lemma owner_is_authenticated_user_witness :
  delete "userId"
    (<["userId" := VStr "11111111-2222-3333-4444-555555555555"]>
       ({[ "description" := VStr "apple" ]} : object))
  = delete "userId" ({[ "description" := VStr "apple" ]} : object)
  ∧ post_food_entries
      (Sample.request
         (<["userId" := VStr "11111111-2222-3333-4444-555555555555"]>
            {[ "description" := VStr "apple" ]}))
      Sample.env Sample.world
    = post_food_entries (Sample.request {[ "description" := VStr "apple" ]})
        Sample.env Sample.world.
Proof.
  split; [vm_compute; reflexivity|].
  apply (owner_is_authenticated_user CreateFoodEntry
           (Sample.request
              (<["userId" := VStr "11111111-2222-3333-4444-555555555555"]>
                 {[ "description" := VStr "apple" ]}))
           (Sample.request {[ "description" := VStr "apple" ]})
           Sample.env Sample.world).
  vm_compute; reflexivity.
Defined.


Lemma schema_failure_is_500_witness :
  create_schema CreateFoodEntry = Some insertFoodEntrySchema
  ∧ parse insertFoodEntrySchema
      (<["userId" := VStr MOCK_USER_ID]>
         (body (Sample.request {[ "calories" := VStr "many" ]})))
    = Throw (ZodError "calories" "Invalid input")
  ∧ post_food_entries (Sample.request {[ "calories" := VStr "many" ]})
      Sample.env Sample.world
    = (Return (mkRes 500 (Message "Failed to create food entry")),
       mkWorld (store Sample.world) (calls Sample.world)
         (console Sample.world
            ++ [("Error creating food entry:",
                 ZodError "calories" "Invalid input")])).
Proof.
  split; [reflexivity|]. split; [vm_compute; reflexivity|].
  apply (schema_failure_is_500 CreateFoodEntry insertFoodEntrySchema
           (Sample.request {[ "calories" := VStr "many" ]})
           Sample.env Sample.world (ZodError "calories" "Invalid input"));
    [reflexivity|vm_compute; reflexivity].
Defined.

Lemma precondition_checks_witness :
  precondition_fails AnalyzeFoodImage (Sample.request ∅)
  ∧ post_analyze_food_image (Sample.request ∅) Sample.env Sample.world
    = (Return (mkRes 400 (Message "Base64 image is required")),
       Sample.world).
Proof.
  split; [reflexivity|].
  apply (precondition_checks AnalyzeFoodImage (Sample.request ∅)
           Sample.env Sample.world).
  reflexivity.
Defined.

Lemma patch_status_outcome_witness :
  params (mkReq "" {[ "status" := VStr "completed" ]} ∅ {[ "id" := "7" ]})
    !! "id" = Some "7"
  ∧ parseInt "7" = Num 7
  ∧ int4 7 = true
  ∧ body (mkReq "" {[ "status" := VStr "completed" ]} ∅ {[ "id" := "7" ]})
      !! "status" = Some (VStr "completed")
  ∧ fst (patch_appointment_status
           (mkReq "" {[ "status" := VStr "completed" ]} ∅ {[ "id" := "7" ]})
           Sample.env Sample.world)
    = Return (mkRes 200 (Message "Appointment status updated")).
Proof.
  split; [reflexivity|]. split; [reflexivity|]. split; [reflexivity|].
  split; [reflexivity|].
  rewrite (patch_status_outcome
             (mkReq "" {[ "status" := VStr "completed" ]} ∅ {[ "id" := "7" ]})
             Sample.env Sample.world "7" 7 "completed");
    reflexivity.
Defined.

Lemma missing_profile_is_absent_witness :
  is_uuid MOCK_USER_ID = true
  ∧ Forall (λ r, ¬ owned_by MOCK_USER_ID r)
           (rows_of (store Sample.world) "user_profiles")
  ∧ get_profile (Sample.request ∅) Sample.env Sample.world
    = (Return (mkRes 200 Undefined),
       mkWorld (store Sample.world)
               (calls Sample.world ++ [Statement "user_profiles"])
               (console Sample.world)).
Proof.
  split; [reflexivity|]. split; [apply Forall_nil_2|].
  apply (missing_profile_is_absent Sample.env Sample.world MOCK_USER_ID
           (Sample.request ∅)); [reflexivity|apply Forall_nil_2..].
Defined.

(* ===================================================================== *)
(** ** Every route answers, and GET routes only read                       *)
(* ===================================================================== *)

Lemma catch_responds (m : M Response) label message env w :
  (∀ res w', m env w = (Return res, w') → well_formed res) →
  ∃ res, fst (try_catch m
                (λ error, console_error label error;;
                          res_status_json 500 (Message message)) env w)
         = Return res ∧ well_formed res.
Proof.
  intros Hm. rewrite run_try_catch.
  destruct (m env w) as [[res|e] w'] eqn:E.
  - exists res. split; [done|]. by eapply Hm.
  - eexists. split; [reflexivity|]. right. split; [by right|by eexists].
Qed.

Ltac unfold_handlers :=
  unfold get_profile, post_profile, get_food_entries, post_food_entries,
    get_food_entries_range, post_analyze_food_image, post_analyze_food_text,
    get_hrv_data, post_hrv_data, get_appointments, post_appointments,
    patch_appointment_status, get_medical_documents, post_medical_documents,
    get_ai_conversations, post_ai_conversations.

Ltac responds :=
  apply catch_responds; intros res w';
  unfold res_json, res_status_json, mret, M_ret;
  repeat first [ rewrite run_bind | rewrite run_lift | case_match ];
  intros; simplify_eq; unfold well_formed; cbn; eauto.

(** X1.  Every registered route answers every request: no failure of the
    validator, the database or the provider escapes the handler.  The
    response is a 200, or a 400 or 500 whose payload is a message object. *)
Theorem handlers_always_respond method path h (req : Request) env w :
  (method, path, h) ∈ registerRoutes →
  ∃ res, fst (h req env w) = Return res ∧ well_formed res.
Proof.
  unfold registerRoutes. rewrite !elem_of_cons, elem_of_nil.
  intros H. repeat destruct H as [H|H]; try done; injection H as -> -> ->;
    unfold_handlers; rewrite run_requireAuth; responds.
Qed.

Lemma select_world t c o l env w :
  storage.run_select t c o l env w
  = (select (store w) t c o l,
     mkWorld (store w) (calls w ++ [Statement (tbl_name t)]) (console w)).
Proof. reflexivity. Qed.

Ltac unfold_getters :=
  unfold storage.getUserProfile, storage.getFoodEntries,
    storage.getFoodEntriesByDateRange, storage.getHRVData,
    storage.getAppointments, storage.getMedicalDocuments,
    storage.getAIConversations, storage.getUser, storage.getUserByEmail.

(** X2.  No GET route changes the store, whatever the request and whether
    or not the query fails. *)
Theorem get_routes_read_only path h (req : Request) env w :
  ("GET", path, h) ∈ registerRoutes →
  store (h req env w).2 = store w.
Proof.
  unfold registerRoutes. rewrite !elem_of_cons, elem_of_nil.
  intros H. repeat destruct H as [H|H]; try discriminate H; try done;
    injection H as -> ->; unfold_handlers; rewrite run_requireAuth;
    rewrite catch_store by done; unfold_getters;
    unfold res_json, res_status_json, mret, M_ret, ask;
    repeat first [ rewrite run_bind | rewrite select_world | case_match ];
    by simplify_eq.
Qed.



(* ===================================================================== *)
(** ** Uncapped listings                                                   *)
(* ===================================================================== *)

Lemma select_owner db t key uid c order limit :
  find_column t key = Some c → col_type c = TUuid →
  is_uuid uid = true →
  select db t (CEq key (VStr uid)) order limit
  = let rows := filter (owned_via key uid) (rows_of db (tbl_name t)) in
    let rows := match order with
                | Some k => orderBy_desc k rows
                | None => rows
                end in
    match limit with
    | Some n => apply_limit n rows
    | None => Return rows
    end.
Proof.
  intros Hc Hty Huid. unfold select. simpl. unfold bind_param.
  rewrite Hc, encode_for_uuid by done. simpl.
  rewrite (filter_bool_Prop _ (owned_via key uid)); [done|].
  intros r. simpl. apply sql_eq_text.
Qed.

Lemma listing_get_run l uid env w :
  is_uuid uid = true →
  listing_get l uid env w
  = (Return (orderBy_desc (listing_order l)
               (filter (owned_via (listing_owner l) uid)
                       (rows_of (store w) (tbl_name (listing_table l))))),
     mkWorld (store w)
             (calls w ++ [Statement (tbl_name (listing_table l))])
             (console w)).
Proof.
  intros Huid. destruct l; cbn [listing_get listing_order listing_owner
                                  listing_table];
    unfold storage.getAppointments, storage.getMedicalDocuments,
      storage.getAIConversations, dsl.eq, dsl.desc;
    rewrite select_world;
    by erewrite select_owner by done.
Qed.

(** X3.  [getAppointments], [getMedicalDocuments] and [getAIConversations]
    return exactly the rows of the given user (by [patientId] for
    appointments, [userId] otherwise), in ORDER BY DESC order of
    [appointmentDate], [uploadDate] and [createdAt], with no cap and without
    changing the store; the three GET routes answer 200 with that listing
    for the authenticated user. *)
Theorem listings_exact (l : listing) (uid : string) (req : Request)
    (env : Env) (w : World) :
  is_uuid uid = true →
  (∃ rs,
     listing_get l uid env w
     = (Return rs,
        mkWorld (store w)
                (calls w ++ [Statement (tbl_name (listing_table l))])
                (console w))
     ∧ listed (listing_table l) (listing_owner l) (listing_order l) uid
              (store w) rs)
  ∧ (∃ rs,
       listing_route l req env w
       = (Return (mkRes 200 (Rows rs)),
          mkWorld (store w)
                  (calls w ++ [Statement (tbl_name (listing_table l))])
                  (console w))
       ∧ listed (listing_table l) (listing_owner l) (listing_order l)
                MOCK_USER_ID (store w) rs).
Proof.
  intros Huid. split.
  - eexists. split; [by apply listing_get_run|].
    split; [apply orderBy_desc_perm|apply orderBy_desc_sorted].
  - pose proof (listing_get_run l MOCK_USER_ID env w mock_is_uuid) as Hrun.
    eexists. split.
    + destruct l; cbn [listing_route listing_get] in *;
        unfold get_appointments, get_medical_documents, get_ai_conversations;
        run; by rewrite Hrun.
    + split; [apply orderBy_desc_perm|apply orderBy_desc_sorted].
Qed.

(* ===================================================================== *)
(** ** Falsy inputs of the precondition checks                             *)
(* ===================================================================== *)

(** X4.  The precondition checks test truthiness: a date bound that is the
    empty string, or a [base64Image] or [description] that is present but
    falsy (the empty string, [null], [0], [false]), gets the same 400 as a
    missing one, and the world is left as it was. *)
Theorem falsy_fields_are_rejected (route : guarded_route) (req : Request)
    (env : Env) (w : World) :
  guard_falsy route req →
  guarded_handler route req env w
  = (Return (mkRes 400 (Message (guard_message route))), w).
Proof.
  destruct route; cbn [guard_falsy guarded_handler guard_message]; intros H.
  - unfold get_food_entries_range. run.
    destruct H as [-> | ->]; cbn [negb orb]; [done|].
    by rewrite orb_true_r.
  - unfold post_analyze_food_image. run. by rewrite H.
  - unfold post_analyze_food_text. run. by rewrite H.
Qed.

(* ===================================================================== *)
(** ** The analysis routes when the provider answers                       *)
(* ===================================================================== *)

(** One run of an analysis function: one call, then the parsed reply or
    the rethrown failure. *)
Lemma analysis_run route input env w :
  match route with
  | ByImage => analyzeFoodImage input
  | ByText => analyzeFoodText input
  end env w
  = let w1 := mkWorld (store w)
                (calls w ++ [Completion (analysis_request route input)])
                (console w) in
    match parsed_reply env (analysis_request route input) with
    | Return v => (Return v, w1)
    | Throw e =>
        (Throw (mkError "Error"
                  (analysis_message route +:+ ": " +:+ err_message e)),
         mkWorld (store w1) (calls w1)
                 (console w1 ++ [(collaborator_label route, e)]))
    end.
Proof.
  destruct route; unfold analyzeFoodImage, analyzeFoodText;
    rewrite run_try_catch, run_bind; unfold completion, parse_reply,
      parsed_reply;
    cbn [analysis_request];
    (destruct (messages_create env _) as [response|e]; [|reflexivity]);
    rewrite run_bind, run_lift;
    change (Return response ≫= _)
      with (t ← first_text response; JSON_parse env t);
    (destruct (first_text response) as [t|e]; [|reflexivity]);
    rewrite run_bind; unfold ask; rewrite run_lift;
    change (Return t ≫= _) with (JSON_parse env t);
    by destruct (JSON_parse env t).
Qed.

(** X5.  When the call of the provider gives a reply and the text of its
    first segment parses as JSON, the analysis route answers 200 with the
    parsed value as it is, whatever its shape: nothing checks it against
    the structure the prompt asks for.  The store is left as it was and
    nothing is logged.  The description is taken to be a string. *)
Theorem analysis_passes_reply_through (route : analysis_route)
    (req : Request) (env : Env) (w : World) (input : value)
    (response : ai_response) (t : string) (v : value) :
  body req !! analysis_field route = Some input →
  truthy input = true →
  plain_input route input →
  messages_create env (analysis_request route input) = Return response →
  first_text response = Return t →
  JSON_parse env t = Return v →
  fst (analysis_handler route req env w) = Return (mkRes 200 (Json v))
  ∧ store (analysis_handler route req env w).2 = store w
  ∧ console (analysis_handler route req env w).2 = console w.
Proof.
  intros Hbody Htruthy _ Hcreate Htext Hparse.
  pose proof (analysis_run route input env w) as Hrun.
  assert (parsed_reply env (analysis_request route input) = Return v) as Hv.
  { unfold parsed_reply. rewrite Hcreate.
    change (Return response ≫= _)
      with (t ← first_text response; JSON_parse env t).
    by rewrite Htext. }
  rewrite Hv in Hrun. cbn zeta in Hrun.
  destruct route; cbn [analysis_handler analysis_field] in *;
    unfold post_analyze_food_image, post_analyze_food_text; run;
    rewrite Hbody; cbn [truthy_opt from_option id]; rewrite Htruthy;
    cbn [negb]; by rewrite run_bind, Hrun.
Qed.

(** X6.  Whatever the provider does, an analysis route whose input passes
    the check (a string, for the description) calls the client of the
    provider once, for the pinned model with 1500 tokens at most, and does
    not call it again after a failure; the store is left untouched.  How
    often the client transmits the request of that call is its own affair,
    see [call]. *)
Theorem analysis_calls_provider_once (route : analysis_route)
    (req : Request) (env : Env) (w : World) (input : value) :
  body req !! analysis_field route = Some input →
  truthy input = true →
  plain_input route input →
  store (analysis_handler route req env w).2 = store w
  ∧ calls (analysis_handler route req env w).2
    = calls w ++ [Completion (analysis_request route input)]
  ∧ model (analysis_request route input) = "claude-sonnet-4-20250514"
  ∧ max_tokens (analysis_request route input) = 1500.
Proof.
  intros Hbody Htruthy _.
  pose proof (analysis_run route input env w) as Hrun.
  assert (store (analysis_handler route req env w).2 = store w
       ∧ calls (analysis_handler route req env w).2
         = calls w ++ [Completion (analysis_request route input)]) as [H1 H2].
  { destruct route; cbn [analysis_handler analysis_field] in *;
    unfold post_analyze_food_image, post_analyze_food_text; run;
    rewrite Hbody; cbn [truthy_opt from_option id]; rewrite Htruthy;
    cbn [negb]; rewrite run_bind, Hrun;
    by destruct (parsed_reply env _). }
  repeat split; try done; by destruct route.
Qed.

(* ===================================================================== *)
(** ** Listings through the routes                                         *)
(* ===================================================================== *)

Lemma listings_capped_food env w uid limit n :
  is_uuid uid = true →
  asks_for 50 limit n →
  ∃ rs,
    storage.getFoodEntries uid limit env w
    = (Return rs,
       mkWorld (store w) (calls w ++ [Statement "food_entries"]) (console w))
    ∧ newest_first_capped "timestamp" n
        (filter (owned_by uid) (rows_of (store w) "food_entries")) rs.
Proof.
  intros Huid Hn.
  unfold storage.getFoodEntries, storage.run_select, statement, dsl.eq,
    dsl.desc.
  rewrite (select_owned _ foodEntries uid _ _ _ eq_refl eq_refl Huid).
  cbn zeta. rewrite (asks_for_limit 50 limit n) by (done || lia).
  eexists. split; [reflexivity|apply capped_listing].
Qed.

Lemma capped_length k n owned rs :
  0 ≤ n → newest_first_capped k n owned rs → Z.of_nat (length rs) ≤ n.
Proof. intros Hn (rest & _ & _ & ->). lia. Qed.

(** X7.  When the [limit] parameter of the query string reads as a safe
    integer that is not negative, GET /api/food-entries and
    GET /api/hrv-data answer 200 with the rows of the authenticated user,
    newest first, cut after that many rows; when the parameter is absent
    or empty, after 50 and 100 rows.  Nothing is said of a limit that
    reads as [NaN], as a negative number or beyond 2^53. *)
Theorem route_listings_capped (req : Request) (env : Env) (w : World)
    (n_food n_hrv : Z) :
  asks_for 50 (query_limit req) n_food →
  asks_for 100 (query_limit req) n_hrv →
  safe_integer n_food → safe_integer n_hrv →
  (∃ rs,
     get_food_entries req env w
     = (Return (mkRes 200 (Rows rs)),
        mkWorld (store w) (calls w ++ [Statement "food_entries"]) (console w))
     ∧ newest_first_capped "timestamp" n_food
         (filter (owned_by MOCK_USER_ID)
                 (rows_of (store w) "food_entries")) rs
     ∧ Z.of_nat (length rs) ≤ n_food)
  ∧ (∃ rs,
       get_hrv_data req env w
       = (Return (mkRes 200 (Rows rs)),
          mkWorld (store w) (calls w ++ [Statement "hrv_data"]) (console w))
       ∧ newest_first_capped "timestamp" n_hrv
           (filter (owned_by MOCK_USER_ID) (rows_of (store w) "hrv_data")) rs
       ∧ Z.of_nat (length rs) ≤ n_hrv).
Proof.
  intros Hfood Hhrv _ _.
  assert (0 ≤ n_food ∧ 0 ≤ n_hrv) as [Hf0 Hh0].
  { unfold asks_for in *. destruct (query_limit req); lia. }
  destruct (listings_capped_food env w MOCK_USER_ID _ _ mock_is_uuid Hfood)
    as (rf & Hrf & Hcf).
  destruct (listings_capped_hrv env w MOCK_USER_ID _ _ mock_is_uuid Hhrv)
    as (rh & Hrh & Hch).
  split.
  - exists rf. split; [|split; [done|by eapply capped_length]].
    unfold get_food_entries. run.
    change (query_limit _) with (query_limit req). by rewrite Hrf.
  - exists rh. split; [|split; [done|by eapply capped_length]].
    unfold get_hrv_data. run.
    change (query_limit _) with (query_limit req). by rewrite Hrh.
Qed.

Lemma query_limit_default req :
  truthy_str (query req !! "limit") = false → query_limit req = None.
Proof. unfold query_limit. by intros ->. Qed.

(* ===================================================================== *)
(** ** Date-range route: dates that do not parse, bounds in reverse        *)
(* ===================================================================== *)

Lemma bind_food_range_invalid uid (s e : Date) :
  is_uuid uid = true → s = None ∨ e = None →
  bind foodEntries
    (CAnd [CEq "userId" (VStr uid);
           CGte "timestamp" (VDate s);
           CLte "timestamp" (VDate e)])
  = Throw (refused "timestamp").
Proof.
  intros Huid H. cbn. rewrite encode_for_uuid by done.
  destruct H as [-> | ->]; [reflexivity|]. by destruct s.
Qed.

Lemma range_guard_passes req sd ed :
  query req !! "startDate" = Some sd → query req !! "endDate" = Some ed →
  sd ≠ "" → ed ≠ "" →
  negb (truthy_str (query req !! "startDate"))
  || negb (truthy_str (query req !! "endDate")) = false.
Proof.
  intros -> -> Hs He. simpl.
  destruct (String.eqb_spec sd ""); [done|].
  by destruct (String.eqb_spec ed "").
Qed.

(** The run of the date-range route when a bound is an Invalid Date:
    the failure is logged and answered with the fixed message. *)
Lemma range_invalid_date_run (req : Request) (env : Env) (w : World)
    (sd ed : string) :
  query req !! "startDate" = Some sd → query req !! "endDate" = Some ed →
  sd ≠ "" → ed ≠ "" →
  Date_parse env sd = None ∨ Date_parse env ed = None →
  ∃ w',
    get_food_entries_range req env w
    = (Return (mkRes 500 (Message "Failed to fetch food entries")), w')
    ∧ store w' = store w
    ∧ console w'
      = console w ++ [("Error fetching food entries by date range:",
                       refused "timestamp")].
Proof.
  intros Hsd Hed Hs He Hbad.
  unfold get_food_entries_range. run.
  rewrite (range_guard_passes req sd ed) by done.
  rewrite run_bind. unfold ask. rewrite run_bind.
  unfold storage.getFoodEntriesByDateRange, storage.run_select, statement,
    select, dsl.and, dsl.eq, dsl.gte, dsl.lte, dsl.desc.
  rewrite bind_food_range_invalid; [by eexists|apply mock_is_uuid|].
  rewrite Hsd, Hed. simpl. tauto.
Qed.

(** X8.  GET /api/food-entries/range with both bounds given, one of which
    does not parse as a date, answers 500 "Failed to fetch food entries":
    the Invalid Date passes the check and is refused when the query is
    built.  The store is unchanged. *)
Theorem range_invalid_date_is_500 (req : Request) (env : Env) (w : World)
    (sd ed : string) :
  query req !! "startDate" = Some sd → query req !! "endDate" = Some ed →
  sd ≠ "" → ed ≠ "" →
  Date_parse env sd = None ∨ Date_parse env ed = None →
  fst (get_food_entries_range req env w)
  = Return (mkRes 500 (Message "Failed to fetch food entries"))
  ∧ store (get_food_entries_range req env w).2 = store w.
Proof.
  intros Hsd Hed Hs He Hbad.
  destruct (range_invalid_date_run req env w sd ed) as (w' & -> & Hw & _);
    done.
Qed.

(** X9.  GET /api/food-entries/range with an end date before the start
    date, both of them dates the server takes as timestamps (years 0001 to
    9999), answers 200 with an empty list, not an error. *)
Theorem range_reversed_is_empty (req : Request) (env : Env) (w : World)
    (sd ed : string) (s e : Z) :
  query req !! "startDate" = Some sd → query req !! "endDate" = Some ed →
  sd ≠ "" → ed ≠ "" →
  Date_parse env sd = Some s → Date_parse env ed = Some e →
  storable (Some s) → storable (Some e) →
  e < s →
  get_food_entries_range req env w
  = (Return (mkRes 200 (Rows [])),
     mkWorld (store w) (calls w ++ [Statement "food_entries"]) (console w)).
Proof.
  intros Hsd Hed Hs He Hps Hpe _ _ Hlt.
  unfold get_food_entries_range. run.
  rewrite (range_guard_passes req sd ed) by done.
  rewrite run_bind. unfold ask. rewrite run_bind.
  unfold storage.getFoodEntriesByDateRange, storage.run_select, statement,
    select, dsl.and, dsl.eq, dsl.gte, dsl.lte, dsl.desc.
  rewrite Hsd, Hed. cbn [new_Date_of mbind option_bind]. rewrite Hps, Hpe.
  rewrite bind_food_range by apply mock_is_uuid.
  cbn [mbind outcome_bind].
  rewrite (filter_bool_Prop _
             (λ r, owned_by MOCK_USER_ID r
                   ∧ stamped_within (Some s) (Some e) r))
    by apply holds_food_range.
  rewrite filter_none; [reflexivity|].
  apply Forall_forall. intros r _ [_ H]. unfold stamped_within in H.
  destruct (cell r "timestamp"); try done. lia.
Qed.

(* ===================================================================== *)
(** ** Status update: what it changes and what it leaves                   *)
(* ===================================================================== *)

Lemma assignments_touch now :
  assignments (tbl_columns appointments) (<["updatedAt" := VDate (Some now)]> ∅)
  = Return [("updatedAt", STimestamp now)].
Proof. vm_compute. reflexivity. Qed.

Lemma assigned_touch now :
  assigned (tbl_columns appointments) (<["updatedAt" := VDate (Some now)]> ∅)
  = [updatedAt_column].
Proof. vm_compute. reflexivity. Qed.

Lemma touch_unconstrained db others r :
  violation db others [updatedAt_column] r = None.
Proof. reflexivity. Qed.

(** X10.  PATCH /api/appointments/:id/status whose body has no [status]
    still answers 200 "Appointment status updated": the status of the
    matching rows is left as it is and only their [updatedAt] is
    refreshed. *)
Theorem patch_without_status_touches (req : Request) (env : Env) (w : World)
    (id_text : string) (n : Z) :
  params req !! "id" = Some id_text →
  parseInt id_text = Num n →
  int4 n = true →
  body req !! "status" = None →
  patch_appointment_status req env w
  = (Return (mkRes 200 (Message "Appointment status updated")),
     mkWorld
       (set_rows (store w) "appointments"
          ((λ r, if sql_eq (cell r "id") (SInt n) then touch env r else r)
             <$> rows_of (store w) "appointments"))
       (calls w ++ [Statement "appointments"]) (console w)).
Proof.
  intros Hid Hparse Hrange Hstatus.
  unfold patch_appointment_status. run.
  rewrite Hid, Hstatus. cbn [from_option id]. rewrite Hparse.
  unfold storage.updateAppointmentStatus, statement, update, dsl.eq.
  unfold storage.new_Date.
  rewrite assignments_touch, assigned_touch.
  rewrite bind_appointment_id by done.
  rewrite update_rows_unchecked by apply touch_unconstrained.
  reflexivity.
Qed.

Lemma bind_bad_id x :
  not_an_id x →
  bind appointments (CEq "id" (VNum x)) = Throw (refused "id").
Proof.
  destruct x as [|n]; simpl; intros H; cbn; unfold encode_for, encode; cbn;
    [done|by rewrite H].
Qed.

(** X11.  PATCH /api/appointments/:id/status with an id that does not read
    as a number ([parseInt] gives [NaN], leading white space of any kind
    skipped) or that reads outside the 32-bit range of the column answers
    500 "Failed to update appointment status" and changes nothing. *)
Theorem patch_bad_id_is_500 (req : Request) (env : Env) (w : World)
    (id_text : string) :
  params req !! "id" = Some id_text →
  not_an_id (parseInt id_text) →
  fst (patch_appointment_status req env w)
  = Return (mkRes 500 (Message "Failed to update appointment status"))
  ∧ store (patch_appointment_status req env w).2 = store w.
Proof.
  intros Hid Hbad.
  unfold patch_appointment_status. run.
  rewrite Hid. cbn [from_option id].
  unfold storage.updateAppointmentStatus, statement, update, dsl.eq.
  rewrite bind_bad_id by done.
  destruct (assignments _ _) as [[|a asg]|e]; by rewrite run_bind.
Qed.

Lemma update_rows_result check upd p done todo rs :
  update_rows check upd p done todo = Return rs →
  rs = done ++ ((λ r, if p r then upd r else r) <$> todo).
Proof.
  revert done. induction todo as [|r todo IH]; intros done; simpl.
  - intros [= <-]. by rewrite app_nil_r.
  - destruct (p r).
    + destruct (check _ _); simpl; [done|].
      intros H. rewrite (IH _ H). by rewrite <- app_assoc.
    + intros H. rewrite (IH _ H). by rewrite <- app_assoc.
Qed.

(** A SET clause assigns nothing to a name its object does not have. *)
Lemma assignments_frame cols set asg k :
  assignments cols set = Return asg → set !! k = None →
  (list_to_map asg : row) !! k = None.
Proof.
  revert asg. induction cols as [|c cs IH]; intros asg; simpl.
  - by intros [= <-] _.
  - destruct (set !! col_key c) as [v|] eqn:Hv; [|apply IH].
    destruct (encode_for c v) as [s|]; simpl; [|done].
    destruct (assignments cs set) as [rest|]; simpl; [|done].
    intros [= <-] Hk. rewrite list_to_map_cons.
    rewrite lookup_insert_ne by congruence. by apply IH.
Qed.

(** X12.  A status update that succeeds changes no column but [status] and
    [updatedAt]: it keeps the number and the order of the appointments,
    every other cell of every row, the rows of the other tables and the
    sequences, whatever id and status it is given. *)
Theorem status_update_frame (id : number) (status : option value)
    (env : Env) (w w' : World) :
  storage.updateAppointmentStatus id status env w = (Return (), w') →
  Forall2 (λ r r', ∀ k, k ≠ "status" → k ≠ "updatedAt" → r' !! k = r !! k)
          (rows_of (store w) "appointments")
          (rows_of (store w') "appointments")
  ∧ (∀ tbl, tbl ≠ "appointments" →
            rows_of (store w') tbl = rows_of (store w) tbl)
  ∧ sequences (store w') = sequences (store w).
Proof.
  unfold storage.updateAppointmentStatus, statement, update.
  set (set := <["updatedAt" := storage.new_Date env]> _).
  destruct (assignments _ set) as [[|a asg]|e] eqn:Hasg; try done.
  destruct (bind _ _) as [b|e]; [|done].
  destruct (update_rows _ _ _ _ _) as [rs|e] eqn:Hrs; [|done].
  intros [= <-]. cbn [store]. apply update_rows_result in Hrs as ->.
  split; [|split; [|done]].
  - rewrite rows_of_set_rows. simpl.
    apply Forall2_fmap_r, Forall_Forall2_diag, Forall_forall.
    intros r _ k Hk1 Hk2. destruct (holds b r); [|done].
    unfold assign. apply lookup_union_r.
    eapply assignments_frame; [exact Hasg|].
    subst set. rewrite lookup_insert_ne by done.
    destruct status; [by rewrite lookup_singleton_ne|done].
  - intros tbl Hne. unfold rows_of, set_rows. simpl.
    by rewrite lookup_insert_ne.
Qed.

(* ===================================================================== *)
(** ** Creating rows                                                       *)
(* ===================================================================== *)

Lemma parse_ext s (i1 i2 : object) :
  (∀ k, k ∈ zf_key <$> s → i1 !! k = i2 !! k) → parse s i1 = parse s i2.
Proof.
  induction s as [|f fs IH]; [done|]. intros H. simpl.
  unfold parse_field. rewrite (H (zf_key f)) by constructor.
  rewrite IH; [done|]. intros k Hk. apply H. by constructor.
Qed.

(** X13.  On a schema-validated POST route the outcome depends on the body
    only through the fields of the insert schema: two bodies that agree on
    those fields (the owner aside) get the same response and leave the same
    world.  The fields the server assigns ([id] and the creation and update
    timestamps) are none of them, so a client cannot set them. *)
Theorem validated_routes_ignore_other_fields (route : create_route)
    (sch : schema) (req1 req2 : Request) (env : Env) (w : World) :
  create_schema route = Some sch →
  (∀ k, k ∈ zf_key <$> sch → k ≠ owner_key route →
        body req1 !! k = body req2 !! k) →
  create_handler route req1 env w = create_handler route req2 env w
  ∧ Forall (λ k, k ∉ zf_key <$> sch) (server_assigned route).
Proof.
  intros Hsch Hagree. split.
  - assert (parse sch (<[owner_key route := VStr MOCK_USER_ID]> (body req1))
            = parse sch (<[owner_key route := VStr MOCK_USER_ID]> (body req2)))
      as Hparse.
    { apply parse_ext. intros k Hk.
      destruct (decide (k = owner_key route)) as [->|Hne].
      - by rewrite !lookup_insert_eq.
      - rewrite !lookup_insert_ne by done. by apply Hagree. }
    destruct route; cbn [create_schema create_handler owner_key] in *;
      try done; injection Hsch as <-;
      unfold post_profile, post_food_entries, post_appointments,
        post_medical_documents, requireAuth, with_owner;
      cbn [userId body]; by rewrite Hparse.
  - destruct route; cbn [create_schema server_assigned] in *; try done;
      injection Hsch as <-; apply (bool_decide_unpack _); vm_compute; exact I.
Qed.

Lemma rows_of_other db name rs tbl :
  tbl ≠ name → rows_of (set_rows db name rs) tbl = rows_of db tbl.
Proof. intros H. unfold rows_of, set_rows. simpl. by rewrite lookup_insert_ne. Qed.

(** What an INSERT that returns has done, and what one that throws has
    left. *)
Lemma insert_inv now uuid t data db :
  match insert now uuid t data db with
  | (db', Return r) =>
      proposed_row now uuid (nextval db (tbl_name t)) (tbl_columns t) data
      = Return r
      ∧ violation (draw t data db) (rows_of db (tbl_name t)) (tbl_columns t) r
        = None
      ∧ db' = set_rows (draw t data db) (tbl_name t)
                (rows_of db (tbl_name t) ++ [r])
  | (db', Throw _) => tables db' = tables db
  end.
Proof.
  unfold insert. destruct (proposed_row _ _ _ _ _) as [r|e]; [|done].
  destruct (violation _ _ _ _) eqn:Hv; [|done].
  unfold draw. by destruct (draws_sequence t data).
Qed.

Lemma run_insert_effect t data env w :
  (∀ tbl, tbl ≠ tbl_name t →
     rows_of (store (storage.run_insert t data env w).2) tbl
     = rows_of (store w) tbl)
  ∧ calls (storage.run_insert t data env w).2
    = calls w ++ [Statement (tbl_name t)]
  ∧ match storage.run_insert t data env w with
    | (Return r, w') =>
        rows_of (store w') (tbl_name t)
        = rows_of (store w) (tbl_name t) ++ [r]
    | (Throw _, w') =>
        rows_of (store w') (tbl_name t) = rows_of (store w) (tbl_name t)
    end.
Proof.
  unfold storage.run_insert, statement.
  pose proof (insert_inv (pg_now env) (pg_uuid env) t data (store w)) as H.
  destruct (insert _ _ _ _ _) as [db' [r|e]]; cbn [snd store calls].
  - destruct H as (_ & _ & ->). split; [|split; [done|]].
    + intros tbl Hne. by rewrite rows_of_other, rows_of_draw.
    + by rewrite rows_of_set_rows.
  - unfold rows_of. by rewrite H.
Qed.

Lemma create_shape_effect (pre : outcome object) t label message env w :
  let h := try_catch
             (data ← lift pre;
              r ← storage.run_insert t data;
              res_json (Row r))
             (λ error,
                console_error label error;;
                res_status_json 500 (Message message)) in
  ∃ res,
    fst (h env w) = Return res
    ∧ (∀ tbl, tbl ≠ tbl_name t →
         rows_of (store (h env w).2) tbl = rows_of (store w) tbl)
    ∧ (status res = 200
       ∧ (∃ r, sent res = Row r
               ∧ rows_of (store (h env w).2) (tbl_name t)
                 = rows_of (store w) (tbl_name t) ++ [r])
       ∨ res = mkRes 500 (Message message)
         ∧ rows_of (store (h env w).2) (tbl_name t)
           = rows_of (store w) (tbl_name t)).
Proof.
  intros h. subst h. rewrite run_try_catch, run_bind, run_lift.
  destruct pre as [data|e].
  - rewrite run_bind.
    destruct (run_insert_effect t data env w) as (Hother & _ & Hrows).
    destruct (storage.run_insert t data env w) as [[r|e] w'];
      cbn [snd] in *.
    + eexists. split; [reflexivity|]. split; [done|]. left.
      split; [done|]. by exists r.
    + eexists. split; [reflexivity|]. split; [done|]. by right.
  - eexists. split; [reflexivity|]. split; [done|]. by right.
Qed.

(** X14.  A POST create route adds at most one row: it answers either 200
    with a row, which is then the one row added at the end of its table, or
    500 with its generic message, and then its table holds the same rows as
    before.  The rows of the other tables are never changed. *)
Theorem create_effect (route : create_route) (req : Request) (env : Env)
    (w : World) :
  let name := tbl_name (create_table route) in
  let after := store (create_handler route req env w).2 in
  ∃ res,
    fst (create_handler route req env w) = Return res
    ∧ (∀ tbl, tbl ≠ name → rows_of after tbl = rows_of (store w) tbl)
    ∧ (status res = 200
       ∧ (∃ r, sent res = Row r
               ∧ rows_of after name = rows_of (store w) name ++ [r])
       ∨ res = mkRes 500 (Message (failure_message route))
         ∧ rows_of after name = rows_of (store w) name).
Proof.
  destruct route; cbn zeta; cbn [create_handler create_table failure_message].
  - destruct (post_profile_refused req env w) as [Hres Hstore].
    eexists. split; [exact Hres|]. rewrite Hstore. split; [done|].
    by right.
  - apply (create_shape_effect (parse insertFoodEntrySchema _) foodEntries).
  - unfold post_hrv_data, requireAuth, storage.createHRVData.
    apply (create_shape_effect (Return _) hrvData).
  - apply (create_shape_effect (parse insertAppointmentSchema _) appointments).
  - apply (create_shape_effect (parse insertMedicalDocumentSchema _)
             medicalDocuments).
  - unfold post_ai_conversations, requireAuth, storage.createAIConversation.
    apply (create_shape_effect (Return _) aiConversations).
Qed.

Lemma encode_for_uuid_inv c s v :
  col_type c = TUuid → encode_for c (VStr s) = Return v →
  is_uuid s = true ∧ v = SText (lower s).
Proof.
  intros Hc. unfold encode_for, encode. rewrite Hc.
  destruct (is_uuid s); [|done]. by intros [= <-].
Qed.

Lemma draws_food_sequence (data : object) :
  data !! "id" = None → draws_sequence foodEntries data = true.
Proof.
  intros H. unfold draws_sequence. cbn.
  by rewrite bool_decide_eq_true_2.
Qed.

(** X15.  A food entry created by POST /api/food-entries gets its [id] from
    the sequence of the table and its [timestamp] from the clock of the
    database, and belongs to the authenticated user, whatever the body says;
    the sequence advances by one. *)
Theorem food_entry_is_server_stamped (req : Request) (env : Env)
    (w w' : World) (r : row) :
  post_food_entries req env w = (Return (mkRes 200 (Row r)), w') →
  cell r "id" = SInt (nextval (store w) "food_entries")
  ∧ cell r "timestamp" = STimestamp (pg_now env)
  ∧ cell r "userId" = SText MOCK_USER_ID
  ∧ nextval (store w') "food_entries" = nextval (store w) "food_entries" + 1.
Proof.
  unfold post_food_entries. run.
  destruct (parse insertFoodEntrySchema _) as [data|e] eqn:Hparse; [|done].
  rewrite run_bind.
  unfold storage.createFoodEntry, storage.run_insert, statement.
  pose proof (insert_inv (pg_now env) (pg_uuid env) foodEntries data
                (store w)) as Hinv.
  destruct (insert _ _ _ _ _) as [db' [r'|e]]; [|done].
  intros [= -> <-]. destruct Hinv as (Hrow & _ & ->).
  assert (data !! "id" = None) as Hid.
  { by rewrite (parse_lookup _ _ _ "id" Hparse). }
  assert (data !! "timestamp" = None) as Hts.
  { by rewrite (parse_lookup _ _ _ "timestamp" Hparse). }
  assert (data !! "userId" = Some (VStr MOCK_USER_ID)) as Huid.
  { by eapply parsed_owner. }
  repeat split.
  - destruct (proposed_row_lookup _ _ _ _ _ _ "id" _ Hrow eq_refl)
      as (v & Hv & Hlook).
    unfold proposed_cell in Hv.
    change (data !! col_key _) with (data !! "id") in Hv. rewrite Hid in Hv.
    injection Hv as <-. unfold cell. by rewrite Hlook.
  - destruct (proposed_row_lookup _ _ _ _ _ _ "timestamp" _ Hrow eq_refl)
      as (v & Hv & Hlook).
    unfold proposed_cell in Hv.
    change (data !! col_key _) with (data !! "timestamp") in Hv. rewrite Hts in Hv.
    injection Hv as <-. unfold cell. by rewrite Hlook.
  - destruct (proposed_row_lookup _ _ _ _ _ _ "userId" _ Hrow eq_refl)
      as (v & Hv & Hlook).
    unfold proposed_cell in Hv.
    change (data !! col_key _) with (data !! "userId") in Hv. rewrite Huid in Hv.
    rewrite encode_for_uuid in Hv by (done || apply mock_is_uuid).
    injection Hv as <-. unfold cell. by rewrite Hlook, mock_lower.
  - cbn [store]. unfold draw. rewrite draws_food_sequence by done.
    unfold nextval, set_rows, advance. cbn [sequences tbl_name foodEntries].
    by rewrite lookup_insert_eq.
Qed.

(** X16.  Round trip of create and list: after [createAppointment],
    [createMedicalDocument] or [createAIConversation] returns a row for a
    user, the matching listing of that user is the rows it had before plus
    that row. *)
Theorem created_row_is_listed (l : listing) (data : object) (uid : string)
    (env env' : Env) (w w' : World) (r : row) :
  listing_create l data env w = (Return r, w') →
  data !! listing_owner l = Some (VStr uid) →
  ∃ rs,
    listing_get l uid env' w'
    = (Return rs,
       mkWorld (store w')
               (calls w' ++ [Statement (tbl_name (listing_table l))])
               (console w'))
    ∧ rs ≡ₚ r :: filter (owned_via (listing_owner l) uid)
                   (rows_of (store w) (tbl_name (listing_table l)))
    ∧ StronglySorted (desc_order (listing_order l)) rs.
Proof.
  intros Hcreate Hdata.
  assert (∃ c, find_column (listing_table l) (listing_owner l) = Some c
               ∧ col_type c = TUuid) as (c & Hc & Hty).
  { destruct l; by eexists. }
  assert (listing_create l data env w
          = storage.run_insert (listing_table l) data env w) as Hrun.
  { by destruct l. }
  rewrite Hrun in Hcreate.
  destruct (run_insert_effect (listing_table l) data env w)
    as (_ & _ & Hrows).
  rewrite Hcreate in Hrows.
  unfold storage.run_insert, statement in Hcreate.
  pose proof (insert_inv (pg_now env) (pg_uuid env) (listing_table l) data
                (store w)) as Hinv.
  destruct (insert _ _ _ _ _) as [db' [r'|e]]; [|done].
  injection Hcreate as -> Hw'. destruct Hinv as (Hrow & _ & _).
  destruct (proposed_row_lookup _ _ _ _ _ _ _ _ Hrow Hc) as (v & Hv & Hlook).
  pose proof Hc as Hkey.
  apply List.find_some in Hkey as [_ Hkey%String.eqb_eq].
  unfold proposed_cell in Hv. rewrite Hkey, Hdata in Hv.
  apply encode_for_uuid_inv in Hv as [Huid ->]; [|done].
  eexists. split; [by apply listing_get_run|].
  split; [|apply orderBy_desc_sorted].
  rewrite orderBy_desc_perm, Hrows, filter_app, filter_cons.
  rewrite decide_True.
  - rewrite filter_nil. by rewrite <- Permutation_cons_append.
  - unfold owned_via, cell. by rewrite Hlook.
Qed.

Lemma violation_fk db others cols r c :
  In c cols → fk_violation db c r = true →
  ∃ e, violation db others cols r = Some e.
Proof.
  intros Hin Hfk. unfold violation.
  destruct (null_check cols r); [by eexists|].
  destruct (List.find (λ c, unique_violation others c r) cols);
    [by eexists|].
  destruct (List.find (λ c, fk_violation db c r) cols) eqn:Hfind;
    [by eexists|].
  pose proof (List.find_none _ _ Hfind c Hin). congruence.
Qed.

Lemma existsb_none {A} (f : A → bool) l :
  Forall (λ x, f x = false) l → existsb f l = false.
Proof. induction 1 as [|x l Hx _ IH]; simpl; [done|]. by rewrite Hx. Qed.

(** An INSERT for an owner that [users] does not hold is refused. *)
Lemma insert_without_owner now uuid t key c (data : object) db :
  find_column t key = Some c → col_type c = TUuid →
  col_references c = Some ("users", "id") →
  data !! key = Some (VStr MOCK_USER_ID) →
  no_such_user MOCK_USER_ID db →
  ∃ e, (insert now uuid t data db).2 = Throw e.
Proof.
  intros Hc Hty Href Hdata Hnone. unfold insert.
  destruct (proposed_row _ _ _ _ _) as [r|e] eqn:Hrow; [|by eexists].
  destruct (proposed_row_lookup _ _ _ _ _ _ _ _ Hrow Hc) as (v & Hv & Hlook).
  pose proof Hc as Hin.
  apply List.find_some in Hin as [Hin Hkey%String.eqb_eq].
  unfold proposed_cell in Hv. rewrite Hkey, Hdata in Hv.
  rewrite encode_for_uuid in Hv by (done || apply mock_is_uuid).
  injection Hv as <-. rewrite mock_lower in Hlook.
  destruct (violation_fk (draw t data db) (rows_of db (tbl_name t))
              (tbl_columns t) r c Hin) as [e He].
  - assert (cell r key = SText MOCK_USER_ID) as Hcell.
    { unfold cell. by rewrite Hlook. }
    unfold fk_violation. rewrite Href, Hkey, Hcell, rows_of_draw.
    by rewrite existsb_none.
  - rewrite He. by eexists.
Qed.

Lemma create_shape_refused (pre : outcome object) t key c label message
    env w :
  find_column t key = Some c → col_type c = TUuid →
  col_references c = Some ("users", "id") →
  (∀ data, pre = Return data → data !! key = Some (VStr MOCK_USER_ID)) →
  no_such_user MOCK_USER_ID (store w) →
  fst (try_catch
         (data ← lift pre;
          r ← storage.run_insert t data;
          res_json (Row r))
         (λ error,
            console_error label error;;
            res_status_json 500 (Message message)) env w)
  = Return (mkRes 500 (Message message)).
Proof.
  intros Hc Hty Href Hpre Hnone.
  rewrite run_try_catch, run_bind, run_lift.
  destruct pre as [data|e]; [|done].
  rewrite run_bind. unfold storage.run_insert, statement.
  destruct (insert_without_owner (pg_now env) (pg_uuid env) t key c data
              (store w) Hc Hty Href (Hpre _ eq_refl) Hnone) as [e He].
  destruct (insert _ _ _ _ _) as [db' o]. cbn [snd] in He. by subst o.
Qed.

(** X17.  The authenticated user must exist: on a store whose [users] table
    has no row for the mock user id, every POST create route answers 500
    with its generic message (the owner column references [users.id]). *)
Theorem create_requires_the_user (route : create_route) (req : Request)
    (env : Env) (w : World) :
  no_such_user MOCK_USER_ID (store w) →
  fst (create_handler route req env w)
  = Return (mkRes 500 (Message (failure_message route))).
Proof.
  intros Hnone.
  destruct route; cbn [create_handler failure_message].
  - apply post_profile_refused.
  - eapply (create_shape_refused (parse insertFoodEntrySchema _) foodEntries
              "userId"); try done.
    intros data Hp. by eapply parsed_owner.
  - unfold post_hrv_data, requireAuth, storage.createHRVData.
    eapply (create_shape_refused (Return _) hrvData "userId"); try done.
    intros data [= <-]. apply lookup_insert_eq.
  - eapply (create_shape_refused (parse insertAppointmentSchema _)
              appointments "patientId"); try done.
    intros data Hp. by eapply parsed_owner.
  - eapply (create_shape_refused (parse insertMedicalDocumentSchema _)
              medicalDocuments "userId"); try done.
    intros data Hp. by eapply parsed_owner.
  - unfold post_ai_conversations, requireAuth, storage.createAIConversation.
    eapply (create_shape_refused (Return _) aiConversations "userId");
      try done.
    intros data [= <-]. apply lookup_insert_eq.
Qed.

(* ===================================================================== *)
(** ** Appointments and JSON bodies                                        *)
(* ===================================================================== *)

Lemma parse_throws s i f (input : object) e :
  s !! i = Some f → parse_field f input = Throw e →
  ∃ e', parse s input = Throw e'.
Proof.
  revert i. induction s as [|f0 fs IH]; intros i; [done|].
  destruct i as [|i]; simpl.
  - intros [= ->] ->. by eexists.
  - intros Hi Hf. destruct (parse_field f0 input); [|by eexists].
    destruct (IH i Hi Hf) as [e' ->]. by eexists.
Qed.

Lemma appointmentDate_required (input : object) :
  not_a_Date (input !! "appointmentDate") →
  ∃ e, parse_field (mkField "appointmentDate" ZDate false false) input
       = Throw e.
Proof.
  unfold parse_field, not_a_Date. cbn [zf_key zf_optional zf_nullable zf_type].
  destruct (input !! "appointmentDate") as [v|]; [|by eexists].
  destruct v as [| | | | | |[t|]]; intros H; try done; by eexists.
Qed.

(** X18.  POST /api/appointments answers 500 "Failed to create
    appointment" without reaching the database whenever [appointmentDate]
    is not a [Date] object: the insert schema asks for one, and no property
    of a JSON body is one. *)
Theorem appointments_need_a_Date (req : Request) (env : Env) (w : World) :
  not_a_Date (body req !! "appointmentDate") →
  ∃ e,
    post_appointments req env w
    = (Return (mkRes 500 (Message "Failed to create appointment")),
       mkWorld (store w) (calls w)
               (console w ++ [("Error creating appointment:", e)])).
Proof.
  intros Hdate.
  destruct (appointmentDate_required
              (<["patientId" := VStr MOCK_USER_ID]> (body req)))
    as [e He].
  { by rewrite lookup_insert_ne. }
  destruct (parse_throws insertAppointmentSchema 2 _ _ _ eq_refl He)
    as [e' Hparse].
  exists e'. unfold post_appointments. run. by rewrite Hparse.
Qed.

(* ===================================================================== *)
(** ** Upsert of a user without an email                                   *)
(* ===================================================================== *)

Lemma sql_eq_null_r v : sql_eq v SNull = false.
Proof. by destruct v. Qed.

Lemma find_conflict_null k r before rest :
  cell r k = SNull → find_conflict k r before rest = None.
Proof.
  intros Hk. revert before. induction rest as [|o rest IH]; intros before;
    simpl; [done|]. by rewrite Hk, sql_eq_null_r.
Qed.

(** X19.  [upsertUser] without an email never updates: NULL emails do not
    collide, so a call that returns has added its row at the end of
    [users], with a NULL email. *)
Theorem upsertUser_without_email_inserts (userData : object)
    (env : Env) (w w' : World) (r : row) :
  userData !! "email" = None →
  storage.upsertUser userData env w = (Return r, w') →
  cell r "email" = SNull
  ∧ rows_of (store w') "users" = rows_of (store w) "users" ++ [r].
Proof.
  intros Hemail. unfold storage.upsertUser, statement,
    insert_onConflictDoUpdate.
  destruct (proposed_row _ _ _ _ _) as [p|] eqn:Hp; [|done].
  destruct (assignments _ _) as [asg|]; [|done].
  destruct (negb _); [done|].
  destruct (null_check _ _); [done|].
  assert (cell p "email" = SNull) as Hnull.
  { destruct (proposed_row_lookup _ _ _ _ _ _ "email" _ Hp eq_refl)
      as (v & Hv & Hlook).
    unfold proposed_cell in Hv.
    change (userData !! col_key _) with (userData !! "email") in Hv.
    rewrite Hemail in Hv. injection Hv as <-. unfold cell. by rewrite Hlook. }
  rewrite (find_conflict_null "email" p) by done.
  destruct (violation _ _ _ _); [done|].
  intros [= <- <-]. cbn [store]. by rewrite rows_of_set_rows.
Qed.

(* ===================================================================== *)
(** ** The further theorems at sample inputs                               *)
(* ===================================================================== *)

Lemma handlers_always_respond_witness :
  ("PATCH", "/api/appointments/:id/status", patch_appointment_status)
    ∈ registerRoutes
  ∧ ∃ res,
      fst (patch_appointment_status (Fixture.patch ∅ "abc") Sample.env
             Sample.world) = Return res
      ∧ well_formed res.
Proof.
  split; [unfold registerRoutes; repeat constructor|].
  apply (handlers_always_respond "PATCH" "/api/appointments/:id/status").
  unfold registerRoutes; repeat constructor.
Defined.

Lemma get_routes_read_only_witness :
  ("GET", "/api/food-entries", get_food_entries) ∈ registerRoutes
  ∧ store (get_food_entries (Sample.request ∅) Sample.env Sample.world).2
    = store Sample.world.
Proof.
  split; [unfold registerRoutes; repeat constructor|].
  apply (get_routes_read_only "/api/food-entries").
  unfold registerRoutes; repeat constructor.
Defined.

Lemma listings_exact_witness :
  is_uuid MOCK_USER_ID = true
  ∧ ∃ rs,
      storage.getAppointments MOCK_USER_ID Sample.env Fixture.booked
      = (Return rs,
         mkWorld (store Fixture.booked)
                 (calls Fixture.booked ++ [Statement "appointments"])
                 (console Fixture.booked))
      ∧ listed appointments "patientId" "appointmentDate" MOCK_USER_ID
               (store Fixture.booked) rs.
Proof.
  split; [reflexivity|].
  apply (listings_exact Appointments MOCK_USER_ID (Sample.request ∅)
           Sample.env Fixture.booked).
  reflexivity.
Defined.

Lemma falsy_fields_are_rejected_witness :
  guard_falsy AnalyzeFoodText (Sample.request {[ "description" := VStr "" ]})
  ∧ post_analyze_food_text (Sample.request {[ "description" := VStr "" ]})
      Sample.env Sample.world
    = (Return (mkRes 400 (Message "Food description is required")),
       Sample.world).
Proof.
  split; [reflexivity|].
  apply (falsy_fields_are_rejected AnalyzeFoodText
           (Sample.request {[ "description" := VStr "" ]})
           Sample.env Sample.world).
  reflexivity.
Defined.

Lemma analysis_passes_reply_through_witness :
  body (Sample.request {[ "description" := VStr "two eggs" ]})
    !! analysis_field ByText = Some (VStr "two eggs")
  ∧ truthy (VStr "two eggs") = true
  ∧ plain_input ByText (VStr "two eggs")
  ∧ messages_create Fixture.answering
      (analysis_request ByText (VStr "two eggs")) = Return Fixture.answer
  ∧ first_text Fixture.answer = Return "{}"
  ∧ JSON_parse Fixture.answering "{}" = Return (VObj ∅)
  ∧ fst (post_analyze_food_text
           (Sample.request {[ "description" := VStr "two eggs" ]})
           Fixture.answering Sample.world)
    = Return (mkRes 200 (Json (VObj ∅)))
  ∧ store (post_analyze_food_text
             (Sample.request {[ "description" := VStr "two eggs" ]})
             Fixture.answering Sample.world).2
    = store Sample.world
  ∧ console (post_analyze_food_text
               (Sample.request {[ "description" := VStr "two eggs" ]})
               Fixture.answering Sample.world).2
    = console Sample.world.
Proof.
  do 2 (split; [reflexivity|]). split; [exact I|].
  do 3 (split; [reflexivity|]).
  exact (analysis_passes_reply_through ByText
           (Sample.request {[ "description" := VStr "two eggs" ]})
           Fixture.answering Sample.world (VStr "two eggs") Fixture.answer
           "{}" (VObj ∅) eq_refl eq_refl I eq_refl eq_refl eq_refl).
Defined.

Lemma analysis_calls_provider_once_witness :
  body (Sample.request {[ "description" := VStr "two eggs" ]})
    !! analysis_field ByText = Some (VStr "two eggs")
  ∧ truthy (VStr "two eggs") = true
  ∧ plain_input ByText (VStr "two eggs")
  ∧ store (post_analyze_food_text
             (Sample.request {[ "description" := VStr "two eggs" ]})
             Sample.env Sample.world).2
    = store Sample.world
  ∧ calls (post_analyze_food_text
             (Sample.request {[ "description" := VStr "two eggs" ]})
             Sample.env Sample.world).2
    = calls Sample.world
        ++ [Completion (analysis_request ByText (VStr "two eggs"))]
  ∧ model (analysis_request ByText (VStr "two eggs"))
    = "claude-sonnet-4-20250514"
  ∧ max_tokens (analysis_request ByText (VStr "two eggs")) = 1500.
Proof.
  do 2 (split; [reflexivity|]). split; [exact I|].
  exact (analysis_calls_provider_once ByText
           (Sample.request {[ "description" := VStr "two eggs" ]})
           Sample.env Sample.world (VStr "two eggs") eq_refl eq_refl I).
Defined.

Lemma route_listings_capped_witness :
  asks_for 50 (query_limit (Sample.request ∅)) 50
  ∧ asks_for 100 (query_limit (Sample.request ∅)) 100
  ∧ safe_integer 50 ∧ safe_integer 100
  ∧ (∃ rs,
       get_food_entries (Sample.request ∅) Sample.env Sample.world
       = (Return (mkRes 200 (Rows rs)),
          mkWorld (store Sample.world)
                  (calls Sample.world ++ [Statement "food_entries"])
                  (console Sample.world))
       ∧ newest_first_capped "timestamp" 50
           (filter (owned_by MOCK_USER_ID)
                   (rows_of (store Sample.world) "food_entries")) rs
       ∧ Z.of_nat (length rs) ≤ 50)
  ∧ (∃ rs,
       get_hrv_data (Sample.request ∅) Sample.env Sample.world
       = (Return (mkRes 200 (Rows rs)),
          mkWorld (store Sample.world)
                  (calls Sample.world ++ [Statement "hrv_data"])
                  (console Sample.world))
       ∧ newest_first_capped "timestamp" 100
           (filter (owned_by MOCK_USER_ID)
                   (rows_of (store Sample.world) "hrv_data")) rs
       ∧ Z.of_nat (length rs) ≤ 100).
Proof.
  do 2 (split; [reflexivity|]).
  do 2 (split; [unfold safe_integer; lia|]).
  apply (route_listings_capped (Sample.request ∅) Sample.env Sample.world
           50 100 eq_refl eq_refl); unfold safe_integer; lia.
Defined.

Lemma range_invalid_date_is_500_witness :
  query (Fixture.range "2024-01-01" "soon") !! "startDate" = Some "2024-01-01"
  ∧ query (Fixture.range "2024-01-01" "soon") !! "endDate" = Some "soon"
  ∧ Date_parse Fixture.answering "soon" = None
  ∧ fst (get_food_entries_range (Fixture.range "2024-01-01" "soon")
           Fixture.answering Sample.world)
    = Return (mkRes 500 (Message "Failed to fetch food entries"))
  ∧ store (get_food_entries_range (Fixture.range "2024-01-01" "soon")
             Fixture.answering Sample.world).2
    = store Sample.world.
Proof.
  do 3 (split; [vm_compute; reflexivity|]).
  apply (range_invalid_date_is_500 (Fixture.range "2024-01-01" "soon")
           Fixture.answering Sample.world "2024-01-01" "soon");
    [vm_compute; reflexivity|vm_compute; reflexivity|discriminate
    |discriminate|right; reflexivity].
Defined.

Lemma range_reversed_is_empty_witness :
  Date_parse Fixture.answering "2024-01-31" = Some 1706659200000
  ∧ Date_parse Fixture.answering "2024-01-01" = Some 1704067200000
  ∧ storable (Some 1706659200000) ∧ storable (Some 1704067200000)
  ∧ 1704067200000 < 1706659200000
  ∧ get_food_entries_range (Fixture.range "2024-01-31" "2024-01-01")
      Fixture.answering Sample.world
    = (Return (mkRes 200 (Rows [])),
       mkWorld (store Sample.world)
               (calls Sample.world ++ [Statement "food_entries"])
               (console Sample.world)).
Proof.
  do 2 (split; [reflexivity|]). do 2 (split; [simpl; lia|]). split; [lia|].
  apply (range_reversed_is_empty (Fixture.range "2024-01-31" "2024-01-01")
           Fixture.answering Sample.world "2024-01-31" "2024-01-01"
           1706659200000 1704067200000);
    [reflexivity|reflexivity|discriminate|discriminate
    |reflexivity|reflexivity|simpl; lia|simpl; lia|lia].
Defined.

Lemma patch_without_status_touches_witness :
  params (Fixture.patch ∅ "7") !! "id" = Some "7"
  ∧ parseInt "7" = Num 7
  ∧ int4 7 = true
  ∧ body (Fixture.patch ∅ "7") !! "status" = None
  ∧ fst (patch_appointment_status (Fixture.patch ∅ "7") Sample.env
           Fixture.booked)
    = Return (mkRes 200 (Message "Appointment status updated")).
Proof.
  do 4 (split; [reflexivity|]).
  rewrite (patch_without_status_touches (Fixture.patch ∅ "7") Sample.env
             Fixture.booked "7" 7); reflexivity.
Defined.

Lemma status_update_frame_witness :
  storage.updateAppointmentStatus (Num 7) (Some (VStr "completed"))
    Sample.env Fixture.booked
  = (Return (),
     (storage.updateAppointmentStatus (Num 7) (Some (VStr "completed"))
        Sample.env Fixture.booked).2)
  ∧ sequences
      (store (storage.updateAppointmentStatus (Num 7)
                (Some (VStr "completed")) Sample.env Fixture.booked).2)
    = sequences (store Fixture.booked).
Proof.
  split; [vm_compute; reflexivity|].
  apply (status_update_frame (Num 7) (Some (VStr "completed")) Sample.env
           Fixture.booked).
  vm_compute; reflexivity.
Defined.

Lemma patch_bad_id_is_500_witness :
  params (Fixture.patch {[ "status" := VStr "completed" ]} "abc") !! "id"
  = Some "abc"
  ∧ not_an_id (parseInt "abc")
  ∧ fst (patch_appointment_status
           (Fixture.patch {[ "status" := VStr "completed" ]} "abc")
           Sample.env Fixture.booked)
    = Return (mkRes 500 (Message "Failed to update appointment status")).
Proof.
  split; [reflexivity|]. split; [exact I|].
  apply (patch_bad_id_is_500
           (Fixture.patch {[ "status" := VStr "completed" ]} "abc")
           Sample.env Fixture.booked "abc"); [reflexivity|exact I].
Defined.

Lemma validated_routes_ignore_other_fields_witness :
  create_schema CreateFoodEntry = Some insertFoodEntrySchema
  ∧ (∀ k, k ∈ zf_key <$> insertFoodEntrySchema → k ≠ owner_key CreateFoodEntry →
          body (Sample.request {[ "id" := VNum (Num 99) ]}) !! k
          = body (Sample.request ∅) !! k)
  ∧ post_food_entries (Sample.request {[ "id" := VNum (Num 99) ]}) Sample.env
      Sample.world
    = post_food_entries (Sample.request ∅) Sample.env Sample.world.
Proof.
  assert (∀ k, k ∈ zf_key <$> insertFoodEntrySchema →
               k ≠ owner_key CreateFoodEntry →
               body (Sample.request {[ "id" := VNum (Num 99) ]}) !! k
               = body (Sample.request ∅) !! k) as Hsame.
  { intros k Hk _. cbn [body Sample.request].
    rewrite lookup_singleton_ne; [by rewrite lookup_empty|].
    intros <-. apply list_elem_of_In in Hk. vm_compute in Hk.
    intuition discriminate. }
  split; [reflexivity|]. split; [exact Hsame|].
  apply (validated_routes_ignore_other_fields CreateFoodEntry
           insertFoodEntrySchema (Sample.request {[ "id" := VNum (Num 99) ]})
           (Sample.request ∅) Sample.env Sample.world eq_refl Hsame).
Defined.

Lemma food_entry_is_server_stamped_witness :
  ∃ r w',
    post_food_entries (Sample.request {[ "id" := VNum (Num 99) ]})
      Sample.env Sample.world
    = (Return (mkRes 200 (Row r)), w')
    ∧ cell r "id" = SInt (nextval (store Sample.world) "food_entries")
    ∧ cell r "timestamp" = STimestamp (pg_now Sample.env)
    ∧ cell r "userId" = SText MOCK_USER_ID
    ∧ nextval (store w') "food_entries"
      = nextval (store Sample.world) "food_entries" + 1.
Proof.
  assert (Fixture.answers_row
            (post_food_entries (Sample.request {[ "id" := VNum (Num 99) ]})
               Sample.env Sample.world).1 = true) as Hrow
    by (vm_compute; reflexivity).
  destruct (post_food_entries _ _ _) as [[[s []]|e] w'] eqn:Hrun;
    try discriminate Hrow.
  apply Z.eqb_eq in Hrow as ->.
  eexists _, _. split; [reflexivity|].
  apply (food_entry_is_server_stamped
           (Sample.request {[ "id" := VNum (Num 99) ]}) Sample.env
           Sample.world _ _ Hrun).
Defined.

Lemma created_row_is_listed_witness :
  ∃ r w',
    storage.createMedicalDocument Fixture.document Sample.env Sample.world
    = (Return r, w')
    ∧ Fixture.document !! "userId" = Some (VStr MOCK_USER_ID)
    ∧ ∃ rs,
        storage.getMedicalDocuments MOCK_USER_ID Sample.later w'
        = (Return rs,
           mkWorld (store w')
                   (calls w' ++ [Statement "medical_documents"])
                   (console w'))
        ∧ rs ≡ₚ r :: filter (owned_via "userId" MOCK_USER_ID)
                       (rows_of (store Sample.world) "medical_documents")
        ∧ StronglySorted (desc_order "uploadDate") rs.
Proof.
  assert (Fixture.returns
            (storage.createMedicalDocument Fixture.document Sample.env
               Sample.world).1 = true) as Hret
    by (vm_compute; reflexivity).
  destruct (storage.createMedicalDocument _ _ _) as [[r|e] w'] eqn:Hrun;
    [|discriminate Hret].
  exists r, w'. split; [reflexivity|].
  split; [vm_compute; reflexivity|].
  exact (created_row_is_listed MedicalDocuments Fixture.document
           MOCK_USER_ID Sample.env Sample.later Sample.world w' r Hrun
           eq_refl).
Defined.

Lemma create_requires_the_user_witness :
  no_such_user MOCK_USER_ID (store Fixture.fresh)
  ∧ fst (post_medical_documents (Sample.request Fixture.document) Sample.env
           Fixture.fresh)
    = Return (mkRes 500 (Message "Failed to create medical document")).
Proof.
  split; [constructor|].
  apply (create_requires_the_user CreateMedicalDocument
           (Sample.request Fixture.document) Sample.env Fixture.fresh).
  constructor.
Defined.

Lemma appointments_need_a_Date_witness :
  not_a_Date
    (body (Sample.request {[ "appointmentDate" := VStr "2024-06-01T09:00" ]})
       !! "appointmentDate")
  ∧ ∃ e,
      post_appointments
        (Sample.request {[ "appointmentDate" := VStr "2024-06-01T09:00" ]})
        Sample.env Sample.world
      = (Return (mkRes 500 (Message "Failed to create appointment")),
         mkWorld (store Sample.world) (calls Sample.world)
           (console Sample.world ++ [("Error creating appointment:", e)])).
Proof.
  split; [exact I|].
  apply (appointments_need_a_Date
           (Sample.request {[ "appointmentDate" := VStr "2024-06-01T09:00" ]})
           Sample.env Sample.world).
  exact I.
Defined.

Lemma upsertUser_without_email_inserts_witness :
  Fixture.bob !! "email" = None
  ∧ ∃ r w',
      storage.upsertUser Fixture.bob Sample.env Sample.world = (Return r, w')
      ∧ cell r "email" = SNull
      ∧ rows_of (store w') "users"
        = rows_of (store Sample.world) "users" ++ [r].
Proof.
  split; [vm_compute; reflexivity|].
  assert (Fixture.returns
            (storage.upsertUser Fixture.bob Sample.env Sample.world).1
          = true) as Hret
    by (vm_compute; reflexivity).
  destruct (storage.upsertUser _ _ _) as [[r|e] w'] eqn:Hrun;
    [|discriminate Hret].
  exists r, w'. split; [reflexivity|].
  exact (upsertUser_without_email_inserts Fixture.bob Sample.env Sample.world
           w' r eq_refl Hrun).
Defined.

Lemma upsertUser_round_trip_witness :
  Sample.ann !! "email" = Some (VStr "ann@example.org")
  ∧ ∃ r w',
      storage.upsertUser Sample.ann Sample.env Sample.world = (Return r, w')
      ∧ List.filter (λ o, sql_eq (cell o "email") (SText "ann@example.org"))
                    (rows_of (store w') "users") = [r]
      ∧ fst (storage.getUserByEmail "ann@example.org" Sample.later w')
        = Return (Some r)
      ∧ ∀ k ck val,
          find_column users k = Some ck → Sample.ann !! k = Some val →
          k ≠ "updatedAt" →
          encode_for ck val = Return (cell r k).
Proof.
  split; [vm_compute; reflexivity|].
  assert (Fixture.returns
            (storage.upsertUser Sample.ann Sample.env Sample.world).1
          = true) as Hret
    by (vm_compute; reflexivity).
  destruct (storage.upsertUser _ _ _) as [[r|e] w'] eqn:Hrun;
    [|discriminate Hret].
  exists r, w'. split; [reflexivity|].
  exact (upsertUser_round_trip Sample.ann "ann@example.org" Sample.env
           Sample.world r w' Sample.later eq_refl Hrun).
Defined.

(* ===================================================================== *)
(** ** Characters beyond ASCII                                             *)
(* ===================================================================== *)

(** [parseInt] skips a no-break space like any other white space. *)
Example parseInt_skips_no_break_space :
  parseInt (Fixture.nbsp +:+ "7") = Num 7.
Proof. reflexivity. Qed.

(** Lengths count characters: a meal type of eleven accented letters fits
    the twenty of its column, and the entry is created. *)
Example accented_meal_type_is_stored :
  String.length Fixture.eleven = 22%nat
  ∧ code_units Fixture.eleven = 11%nat
  ∧ Fixture.answers_row
      (post_food_entries
         (Sample.request {[ "mealType" := VStr Fixture.eleven ]})
         Sample.env Sample.world).1 = true.
Proof. repeat split; vm_compute; reflexivity. Qed.
